(** * Realtime bridge server: session registry, call finalisation and the
      per-connection handlers of [src/index.js], with the properties the
      specification states about them.

    The source file holds two revisions of the server.  They share the
    sweep, [connectOpenAI], [handleOpenAIEvent], the [media]/[stop]/[close]
    handlers and [handleCallEnd] up to the way a failed report is logged
    (revision B reads the body of the response first).  They differ in how a
    streaming connection is tied to a session (revision A: at connection
    time, from the URL; revision B: at the [start] event, URL first and then
    the custom parameter).  Both are modelled.  The address of the AI
    service and the informational [console.log] lines of the connection
    handlers are not part of the effects recorded. *)

From stdpp Require Import base strings gmap list fin_maps.
From Stdlib Require Import ZArith Lia.

Open Scope Z_scope.
Open Scope string_scope.
Open Scope list_scope.

(** ** JavaScript values that flow through the handlers *)

(** Identifiers and payloads are strings when present; a missing property
    reads as [undefined] and several variables start as [null]. *)
Inductive jsval :=
| JUndefined
| JNull
| JString (s : string).

#[global] Instance jsval_eq_dec : EqDecision jsval.
Proof. solve_decision. Defined.

(** Truthiness, as used by [x || d], [if (x)] and [!x]. *)
Definition truthy (v : jsval) : bool :=
  match v with
  | JString s => negb (String.eqb s "")
  | _ => false
  end.

(** [v || d] *)
Definition js_or (v d : jsval) : jsval := if truthy v then v else d.

(** ** Sessions *)

Inductive Role := User | Agent.

Record TranscriptEntry := mkEntry {
  role : Role;
  text : string;
  timestamp : Z
}.

Record Session := mkSession {
  prompt : jsval;
  callId : jsval;
  contactName : jsval;
  voiceId : jsval;
  language : jsval;
  transcript : list TranscriptEntry;
  createdAt : Z;
  _ended : bool          (* the property is absent, hence falsy, until set *)
}.

Definition set_ended (s : Session) : Session :=
  {| prompt := prompt s; callId := callId s; contactName := contactName s;
     voiceId := voiceId s; language := language s;
     transcript := transcript s; createdAt := createdAt s; _ended := true |}.

Definition push_transcript (e : TranscriptEntry) (s : Session) : Session :=
  {| prompt := prompt s; callId := callId s; contactName := contactName s;
     voiceId := voiceId s; language := language s;
     transcript := transcript s ++ [e]; createdAt := createdAt s;
     _ended := _ended s |}.

(** Body of [POST /session]. *)
Record SessionBody := mkBody {
  body_prompt : jsval;
  body_callId : jsval;
  body_contactName : jsval;
  body_voiceId : jsval;
  body_language : jsval
}.

(** ** The process-wide state

    Session objects are shared by reference between the [sessions] map and
    the closures of the connections that resolved them, so they live in a
    heap and the map holds references. *)
Record World := mkWorld {
  heap : list Session;
  sessions : gmap string nat;      (* const sessions = new Map() *)
  awaiting : list string;          (* handleCallEnd activations suspended at [await fetch], by sessionId *)
  timers : list string             (* pending [setTimeout(() => sessions.delete(sessionId), ...)] *)
}.

Definition empty_world : World :=
  {| heap := []; sessions := ∅; awaiting := []; timers := [] |}.

Record Report := mkReport {
  r_type : string;
  r_callId : jsval;
  r_callSid : jsval;
  r_transcript : string;
  r_duration : Z;
  r_endedReason : string
}.

(** How the awaited request ends, as [handleCallEnd] sees it when it
    resumes for the last time.  Revision A logs the status of a non-success
    response at once.  Revision B first awaits [resp.text()], inside the same
    [try]: nothing is done between the two awaits, and the activation resumes
    either with the text, and logs the status, or with the failure of that
    read, and logs from the [catch].  Revision A never reads the text, so
    [RespNotOkTextFailed] is an outcome of revision B only. *)
Inductive FetchOutcome :=
| RespOk
| RespNotOk (status : Z)
| Rejected
| RespNotOkTextFailed (status : Z).

Inductive LogLine :=
| LogSessionCreated
| LogCallEnded (duration : Z)
| LogResultsPosted.

Inductive ErrLine :=
| ErrFailedStatus (status : Z)
| ErrFailedToPost
| ErrInvalidSession
| ErrNoValidSession
| ErrParseTwilio
| ErrParseOpenAI
| ErrOpenAI.

(** Messages sent on the two legs. *)
Inductive OpenAIOut :=
| SessionUpdate (instructions : jsval)
| ResponseCreate
| InputAudioBufferAppend (audio : jsval).

Inductive TwilioOut :=
| MediaOut (streamSid : jsval) (payload : jsval)
| ClearOut (streamSid : jsval).

(** Everything a handler does to the outside, in program order. *)
Inductive Effect :=
| ConsoleLog (l : LogLine)
| ConsoleError (e : ErrLine)
| Fetch (r : Report)
| SetTimeout (sessionId : string) (delay : Z)
| NewWebSocket (k : nat)
| OpenAISend (k : nat) (m : OpenAIOut)
| OpenAICloseCall (k : nat)
| TwilioSend (m : TwilioOut)
| TwilioCloseCall
| Uncaught.

#[global] Instance Role_eq_dec : EqDecision Role.
Proof. solve_decision. Defined.
#[global] Instance Report_eq_dec : EqDecision Report.
Proof. solve_decision. Defined.
#[global] Instance LogLine_eq_dec : EqDecision LogLine.
Proof. solve_decision. Defined.
#[global] Instance ErrLine_eq_dec : EqDecision ErrLine.
Proof. solve_decision. Defined.
#[global] Instance OpenAIOut_eq_dec : EqDecision OpenAIOut.
Proof. solve_decision. Defined.
#[global] Instance TwilioOut_eq_dec : EqDecision TwilioOut.
Proof. solve_decision. Defined.
#[global] Instance Effect_eq_dec : EqDecision Effect.
Proof. solve_decision. Defined.

(** ** Rendering and arithmetic of [handleCallEnd] *)

Definition newline : string := String (Ascii.ascii_of_nat 10) "".

(** [t.role === "user" ? "לקוח" : "סוכן"] *)
Definition label (r : Role) : string :=
  match r with
  | User => "לקוח"
  | Agent => "סוכן"
  end.

Definition line (t : TranscriptEntry) : string :=
  (label (role t) ++ ": " ++ text t)%string.

(** [session.transcript.map(...).join("\n")] *)
Definition render (ts : list TranscriptEntry) : string :=
  String.concat newline (map line ts).

(** [Math.round(ms / 1000)]: [Math.round x] is [floor (x + 1/2)], and [ms]
    is a whole number of milliseconds ([Date.now()] returns integers).  The
    only ties, [ms] congruent to 500 modulo 1000, have a quotient that the
    floating-point division gives exactly, so the integer formula agrees with
    the source on every difference of timestamps. *)
Definition Math_round_div1000 (ms : Z) : Z := (ms + 500) / 1000.

Definition GRACE_MS : Z := 5 * 60 * 1000.
Definition MAX_AGE_MS : Z := 2 * 60 * 60 * 1000.
Definition SWEEP_EVERY_MS : Z := 30 * 60 * 1000.

(** [sessions.get(sessionId)], following the reference into the heap. *)
Definition sessions_get (sessionId : jsval) (w : World) : option nat :=
  match sessionId with
  | JString s => sessions w !! s
  | _ => None
  end.

Definition deref (l : nat) (w : World) : option Session := heap w !! l.

Definition store (l : nat) (s : Session) (w : World) : World :=
  {| heap := <[l := s]> (heap w); sessions := sessions w;
     awaiting := awaiting w; timers := timers w |}.

Section Finalize.

(** [process.env.SUPABASE_URL] and [process.env.SUPABASE_ANON_KEY]. *)
Variable SUPABASE_URL SUPABASE_ANON_KEY : jsval.

Definition make_report (s : Session) (callSid : jsval) (now : Z) : Report :=
  {| r_type := "openai-realtime-end";
     r_callId := callId s;
     r_callSid := callSid;
     r_transcript := render (transcript s);
     r_duration := Math_round_div1000 (now - createdAt s);
     r_endedReason := "call_ended" |}.

(** [handleCallEnd], up to its first suspension point: either the
    [await fetch(...)] or, when no report is due, the end of the function
    (an async function runs synchronously until it awaits). *)
Definition handleCallEnd (sessionId callSid : jsval) (now : Z) (w : World)
  : World * list Effect :=
  match sessionId, sessions_get sessionId w with
  | JString sid, Some l =>
    match deref l w with
    | Some session =>
      if _ended session then (w, [])
      else
        let w1 := store l (set_ended session) w in
        let duration := Math_round_div1000 (now - createdAt session) in
        if truthy SUPABASE_URL && truthy SUPABASE_ANON_KEY && truthy (callId session)
        then ({| heap := heap w1; sessions := sessions w1;
                 awaiting := awaiting w1 ++ [sid]; timers := timers w1 |},
              [ConsoleLog (LogCallEnded duration);
               Fetch (make_report session callSid now)])
        else ({| heap := heap w1; sessions := sessions w1;
                 awaiting := awaiting w1; timers := timers w1 ++ [sid] |},
              [ConsoleLog (LogCallEnded duration);
               SetTimeout sid GRACE_MS])
    | None => (w, [])
    end
  | _, _ => (w, [])
  end.

(** The rest of [handleCallEnd], run when the last awaited promise
    settles: the line logged, by the branches of the [if] or by the
    [catch]. *)
Definition settle_log (o : FetchOutcome) : Effect :=
  match o with
  | RespOk => ConsoleLog LogResultsPosted
  | RespNotOk status => ConsoleError (ErrFailedStatus status)
  | Rejected => ConsoleError ErrFailedToPost
  | RespNotOkTextFailed _ => ConsoleError ErrFailedToPost
  end.

Definition handleCallEnd_resume (i : nat) (o : FetchOutcome) (w : World)
  : World * list Effect :=
  match awaiting w !! i with
  | Some sid =>
    ({| heap := heap w; sessions := sessions w;
        awaiting := delete i (awaiting w); timers := timers w ++ [sid] |},
     [settle_log o; SetTimeout sid GRACE_MS])
  | None => (w, [])
  end.

End Finalize.

(** ** The other writers of the registry *)

(** [POST /session]: [uuid] is the value [uuidv4()] returned. *)
Definition post_session (uuid : string) (b : SessionBody) (now : Z) (w : World)
  : World * list Effect :=
  let s := {| prompt := js_or (body_prompt b) (JString "You are a helpful assistant.");
              callId := js_or (body_callId b) JNull;
              contactName := js_or (body_contactName b) (JString "");
              voiceId := js_or (body_voiceId b) (JString "alloy");
              language := js_or (body_language b) (JString "he");
              transcript := [];
              createdAt := now;
              _ended := false |} in
  ({| heap := heap w ++ [s];
      sessions := <[uuid := length (heap w)]> (sessions w);
      awaiting := awaiting w; timers := timers w |},
   [ConsoleLog LogSessionCreated]).

(** The callback of the [i]-th pending grace timer: [sessions.delete(sessionId)]. *)
Definition timer_fired (i : nat) (w : World) : World :=
  match timers w !! i with
  | Some sid =>
    {| heap := heap w; sessions := delete sid (sessions w);
       awaiting := awaiting w; timers := delete i (timers w) |}
  | None => w
  end.

(** [now - session.createdAt > 2 * 60 * 60 * 1000] for the object behind a
    reference (every reference in the map points into the heap). *)
Definition expired (now : Z) (w : World) (l : nat) : bool :=
  match deref l w with
  | Some s => bool_decide (now - createdAt s > MAX_AGE_MS)
  | None => false
  end.

(** One tick of the [setInterval] sweep. *)
Definition sweep (now : Z) (w : World) : World :=
  {| heap := heap w;
     sessions := filter (λ kv, expired now w kv.2 = false) (sessions w);
     awaiting := awaiting w; timers := timers w |}.

(** [session.transcript.push(e)] through a reference. *)
Definition transcript_push (l : nat) (e : TranscriptEntry) (w : World) : World :=
  match deref l w with
  | Some s => store l (push_transcript e s) w
  | None => w
  end.

(** ** One streaming connection *)

Inductive Revision := RevA | RevB.

Inductive ReadyState := CONNECTING | OPEN | CLOSING | CLOSED.

#[global] Instance ReadyState_eq_dec : EqDecision ReadyState.
Proof. solve_decision. Defined.

(** The variables captured by the handlers of one [wss.on("connection")]. *)
Record Conn := mkConn {
  sessionId : jsval;
  session : option nat;        (* the session object, or null/undefined *)
  streamSid : jsval;
  callSid : jsval;
  openaiWs : option nat;       (* the socket last created by connectOpenAI *)
  openaiReady : bool
}.

(** [world]: process state; [socks]: ready state of every socket opened
    towards the AI service, in creation order; [conn]: the closure, [None]
    when the connection callback returned before registering handlers. *)
Record Sys := mkSys {
  world : World;
  socks : list ReadyState;
  conn : option Conn
}.

Record StartPayload := mkStart {
  start_streamSid : jsval;
  start_callSid : jsval;
  start_customParameters : option jsval   (* [None]: customParameters is nullish;
                                             [Some v]: v is its sessionId property *)
}.

(** [data.start.customParameters?.sessionId] *)
Definition custom_sessionId (p : StartPayload) : jsval :=
  match start_customParameters p with
  | Some v => v
  | None => JUndefined
  end.

(** Parsed telephony frames; an absent [start] or [media] object makes the
    property access throw. *)
Inductive TwilioMsg :=
| Connected
| Start (start : option StartPayload)
| Media (media : option jsval)          (* [Some v]: v is data.media.payload *)
| Stop
| OtherTwilio.

Inductive OpenAIEvent :=
| SessionCreated
| ResponseAudioDelta (delta : jsval)
| ResponseAudioTranscriptDone (t : jsval)
| InputAudioTranscriptionCompleted (t : jsval)
| InputAudioBufferSpeechStarted
| ErrorEvent
| OtherOpenAI.

(** [openaiWs?.readyState === WebSocket.OPEN] *)
Definition openai_is_open (c : Conn) (ss : list ReadyState) : bool :=
  match openaiWs c with
  | Some k => bool_decide (ss !! k = Some OPEN)
  | None => false
  end.

Definition set_ready (b : bool) (c : Conn) : Conn :=
  {| sessionId := sessionId c; session := session c; streamSid := streamSid c;
     callSid := callSid c; openaiWs := openaiWs c; openaiReady := b |}.

(** Text of a transcript event, when it is truthy. *)
Definition truthy_text (v : jsval) : option string :=
  match v with
  | JString s => if truthy v then Some s else None
  | _ => None
  end.

(** [send] of the socket library on the AI leg: it throws while the socket
    is CONNECTING, transmits when the socket is OPEN, and discards the
    message without throwing once the closing of the socket has started. *)
Inductive SendOutcome := Transmitted | Discarded | Thrown.

Definition ws_send (ss : list ReadyState) (k : nat) : SendOutcome :=
  match ss !! k with
  | Some OPEN => Transmitted
  | Some CONNECTING => Thrown
  | _ => Discarded
  end.

(** [connectOpenAI]: a new socket, in state CONNECTING, replaces [openaiWs]. *)
Definition connectOpenAI (c : Conn) (ss : list ReadyState)
  : Conn * list ReadyState * list Effect :=
  let k := length ss in
  ({| sessionId := sessionId c; session := session c; streamSid := streamSid c;
      callSid := callSid c; openaiWs := Some k; openaiReady := openaiReady c |},
   ss ++ [CONNECTING],
   [NewWebSocket k]).

(** [openaiWs.on("open")]: configure the session, then mark the leg ready.
    The message goes to the socket the closure holds, which is not the one
    that opened when a later [start] frame has replaced it.  Reading through
    a null [openaiWs] or [session] throws, and so does the [send] on a socket
    that is still CONNECTING; the handler has no [try], so [openaiReady]
    is then left as it was.  [ss] holds the ready states once the socket of
    the event is OPEN. *)
Definition openai_on_open (c : Conn) (w : World) (ss : list ReadyState)
  : Conn * list Effect :=
  match openaiWs c, session c ≫= (λ l, deref l w) with
  | Some k, Some s =>
    match ws_send ss k with
    | Transmitted => (set_ready true c, [OpenAISend k (SessionUpdate (prompt s))])
    | Discarded => (set_ready true c, [])
    | Thrown => (c, [Uncaught])
    end
  | _, _ => (c, [Uncaught])
  end.

(** [handleOpenAIEvent]; [None] when it throws. *)
Definition handleOpenAIEvent (e : OpenAIEvent) (now : Z) (c : Conn) (w : World)
    (ss : list ReadyState)
  : option (World * list Effect) :=
  match e with
  | SessionCreated =>
    match openaiWs c with
    | Some k =>
      match ws_send ss k with
      | Transmitted => Some (w, [OpenAISend k ResponseCreate])
      | Discarded => Some (w, [])
      | Thrown => None
      end
    | None => None
    end
  | ResponseAudioDelta delta =>
    if truthy (streamSid c) && truthy delta
    then Some (w, [TwilioSend (MediaOut (streamSid c) delta)])
    else Some (w, [])
  | ResponseAudioTranscriptDone t =>
    match truthy_text t with
    | Some s =>
      match session c with
      | Some l => Some (transcript_push l (mkEntry Agent s now) w, [])
      | None => None
      end
    | None => Some (w, [])
    end
  | InputAudioTranscriptionCompleted t =>
    match truthy_text t with
    | Some s =>
      match session c with
      | Some l => Some (transcript_push l (mkEntry User s now) w, [])
      | None => None
      end
    | None => Some (w, [])
    end
  | InputAudioBufferSpeechStarted =>
    Some (w, [TwilioSend (ClearOut (streamSid c))])
  | ErrorEvent => Some (w, [ConsoleError ErrOpenAI])
  | OtherOpenAI => Some (w, [])
  end.

(** [openaiWs.on("message")]: parse, dispatch, log whatever is thrown. *)
Definition openai_on_message (e : option OpenAIEvent) (now : Z) (c : Conn) (w : World)
    (ss : list ReadyState)
  : World * list Effect :=
  match e ≫= (λ ev, handleOpenAIEvent ev now c w ss) with
  | Some r => r
  | None => (w, [ConsoleError ErrParseOpenAI])
  end.

Section Bridge.

Variable SUPABASE_URL SUPABASE_ANON_KEY : jsval.

(** The body of [wss.on("connection")] before the handlers are
    registered.  [url_sessionId] is [url.searchParams.get("sessionId")].
    Revision A refuses a connection whose URL does not name a session;
    revision B keeps whatever the URL gives and decides at [start]. *)
Definition on_connection (rev : Revision) (url_sessionId : jsval) (w : World)
  : option Conn * list Effect :=
  match rev with
  | RevA =>
    if negb (truthy url_sessionId) || negb (bool_decide (is_Some (sessions_get url_sessionId w)))
    then (None, [ConsoleError ErrInvalidSession; TwilioCloseCall])
    else (Some {| sessionId := url_sessionId;
                  session := sessions_get url_sessionId w;
                  streamSid := JNull; callSid := JNull;
                  openaiWs := None; openaiReady := false |}, [])
  | RevB =>
    (Some {| sessionId := url_sessionId;
             session := if truthy url_sessionId
                        then sessions_get url_sessionId w else None;
             streamSid := JNull; callSid := JNull;
             openaiWs := None; openaiReady := false |}, [])
  end.

(** The [start] case of the telephony handler, for a present
    [data.start]. *)
Definition twilio_on_start (rev : Revision) (p : StartPayload)
    (c : Conn) (w : World) (ss : list ReadyState)
  : Conn * list ReadyState * list Effect :=
  let c1 := {| sessionId := sessionId c; session := session c;
               streamSid := start_streamSid p; callSid := start_callSid p;
               openaiWs := openaiWs c; openaiReady := openaiReady c |} in
  match rev with
  | RevA => connectOpenAI c1 ss
  | RevB =>
    let c2 :=
      match session c1 with
      | None =>
        if truthy (custom_sessionId p)
        then {| sessionId := custom_sessionId p;
                session := sessions_get (custom_sessionId p) w;
                streamSid := streamSid c1; callSid := callSid c1;
                openaiWs := openaiWs c1; openaiReady := openaiReady c1 |}
        else c1
      | Some _ => c1
      end in
    match session c2 with
    | None => (c2, ss, [ConsoleError ErrNoValidSession; TwilioCloseCall])
    | Some _ => connectOpenAI c2 ss
    end
  end.

(** The [media] case: the payload is read only inside the guard. *)
Definition twilio_on_media (media : option jsval) (c : Conn) (ss : list ReadyState)
  : list Effect :=
  if openaiReady c && openai_is_open c ss then
    match media, openaiWs c with
    | Some payload, Some k => [OpenAISend k (InputAudioBufferAppend payload)]
    | _, _ => [ConsoleError ErrParseTwilio]
    end
  else [].

(** [twilioWs.on("message")], with its [try]/[catch]. *)
Definition twilio_on_message (rev : Revision) (m : option TwilioMsg) (now : Z)
    (c : Conn) (w : World) (ss : list ReadyState)
  : Conn * World * list ReadyState * list Effect :=
  match m with
  | None => (c, w, ss, [ConsoleError ErrParseTwilio])
  | Some Connected => (c, w, ss, [])
  | Some (Start None) => (c, w, ss, [ConsoleError ErrParseTwilio])
  | Some (Start (Some p)) =>
    let '(c', ss', effs) := twilio_on_start rev p c w ss in (c', w, ss', effs)
  | Some (Media media) => (c, w, ss, twilio_on_media media c ss)
  | Some Stop =>
    let '(w', effs) :=
      handleCallEnd SUPABASE_URL SUPABASE_ANON_KEY (sessionId c) (callSid c) now w in
    (c, w', ss, effs)
  | Some OtherTwilio => (c, w, ss, [])
  end.

(** [twilioWs.on("close")]: close the AI leg if it is open, then finalise. *)
Definition twilio_on_close (now : Z) (c : Conn) (w : World) (ss : list ReadyState)
  : World * list ReadyState * list Effect :=
  let '(ss', e1) :=
    match openaiWs c with
    | Some k =>
      if openai_is_open c ss then (<[k := CLOSING]> ss, [OpenAICloseCall k])
      else (ss, [])
    | None => (ss, [])
    end in
  let '(w', e2) :=
    handleCallEnd SUPABASE_URL SUPABASE_ANON_KEY (sessionId c) (callSid c) now w in
  (w', ss', e1 ++ e2).

(** What reaches the registry from outside this connection: the HTTP
    endpoint, the timers, settled fetches, and the finalisations and
    transcript writes of other connections. *)
Inductive Op :=
| PostSession (uuid : string) (b : SessionBody) (now : Z)
| CallEnd (sessionId callSid : jsval) (now : Z)
| FetchSettled (i : nat) (o : FetchOutcome)
| TimerFired (i : nat)
| Sweep (now : Z)
| TranscriptPush (l : nat) (e : TranscriptEntry).

Definition apply_op (op : Op) (w : World) : World * list Effect :=
  match op with
  | PostSession uuid b now => post_session uuid b now w
  | CallEnd sid cs now => handleCallEnd SUPABASE_URL SUPABASE_ANON_KEY sid cs now w
  | FetchSettled i o => handleCallEnd_resume i o w
  | TimerFired i => (timer_fired i w, [])
  | Sweep now => (sweep now w, [])
  | TranscriptPush l e => (transcript_push l e w, [])
  end.

(** Events delivered to the process; [now] is what [Date.now()] returns
    while the handler runs, [k] the socket an AI-leg event belongs to. *)
Inductive Event :=
| Global (op : Op)
| TwilioMessage (m : option TwilioMsg) (now : Z)   (* [None]: JSON.parse throws *)
| TwilioClosed (now : Z)
| OpenAIOpened (k : nat)
| OpenAIMessage (k : nat) (e : option OpenAIEvent) (now : Z)
| OpenAIClosed (k : nat)
| OpenAIErrored (k : nat).

Definition step (rev : Revision) (e : Event) (s : Sys) : Sys * list Effect :=
  match e, conn s with
  | Global op, _ =>
    let '(w', effs) := apply_op op (world s) in
    ({| world := w'; socks := socks s; conn := conn s |}, effs)
  | _, None => (s, [])
  | TwilioMessage m now, Some c =>
    let '(c', w', ss', effs) := twilio_on_message rev m now c (world s) (socks s) in
    ({| world := w'; socks := ss'; conn := Some c' |}, effs)
  | TwilioClosed now, Some c =>
    let '(w', ss', effs) := twilio_on_close now c (world s) (socks s) in
    ({| world := w'; socks := ss'; conn := Some c |}, effs)
  | OpenAIOpened k, Some c =>
    let '(c', effs) := openai_on_open c (world s) (<[k := OPEN]> (socks s)) in
    ({| world := world s; socks := <[k := OPEN]> (socks s); conn := Some c' |}, effs)
  | OpenAIMessage k ev now, Some c =>
    let '(w', effs) := openai_on_message ev now c (world s) (socks s) in
    ({| world := w'; socks := socks s; conn := Some c |}, effs)
  | OpenAIClosed k, Some c =>
    ({| world := world s; socks := <[k := CLOSED]> (socks s);
        conn := Some (set_ready false c) |}, [])
  | OpenAIErrored k, Some c => (s, [ConsoleError ErrOpenAI])
  end.

Fixpoint run (rev : Revision) (es : list Event) (s : Sys) : Sys * list Effect :=
  match es with
  | [] => (s, [])
  | e :: es' =>
    let '(s1, out1) := step rev e s in
    let '(s2, out2) := run rev es' s1 in
    (s2, out1 ++ out2)
  end.

(** A streaming connection arriving in world [w]. *)
Definition connect (rev : Revision) (url_sessionId : jsval) (w : World)
  : Sys * list Effect :=
  let '(c, effs) := on_connection rev url_sessionId w in
  ({| world := w; socks := []; conn := c |}, effs).

End Bridge.

(** ** Observations on runs of registry operations *)

#[global] Instance TranscriptEntry_eq_dec : EqDecision TranscriptEntry.
Proof. solve_decision. Defined.
#[global] Instance Session_eq_dec : EqDecision Session.
Proof. solve_decision. Defined.
#[global] Instance World_eq_dec : EqDecision World.
Proof. solve_decision. Defined.

(** [_ended] of the object behind a reference. *)
Definition ended_at (l : nat) (w : World) : bool :=
  match deref l w with
  | Some s => _ended s
  | None => false
  end.

(** The session [handleCallEnd(sessionId, ...)] would act on: present in
    the map and not yet ended. *)
Definition pending_session (sessionId : jsval) (w : World)
  : option (string * nat * Session) :=
  match sessionId with
  | JString sid =>
    l ← sessions w !! sid;
    s ← deref l w;
    if _ended s then None else Some (sid, l, s)
  | _ => None
  end.

Definition is_Fetch (e : Effect) : bool :=
  match e with Fetch _ => true | _ => false end.

Section Counting.

Variable SUPABASE_URL SUPABASE_ANON_KEY : jsval.

(** [op] is an invocation of [handleCallEnd] whose lookup yields object [l]. *)
Definition finalizes (l : nat) (op : Op) (w : World) : bool :=
  match op with
  | CallEnd sid _ _ => bool_decide (sessions_get sid w = Some l)
  | _ => false
  end.

(** 1 when [op] takes [_ended] of object [l] from false to true. *)
Definition flip_here (l : nat) (op : Op) (w : World) : nat :=
  if negb (ended_at l w)
     && ended_at l (apply_op SUPABASE_URL SUPABASE_ANON_KEY op w).1
  then 1%nat else 0%nat.

(** Reports issued by [op] when it is a finalisation of object [l]. *)
Definition reports_here (l : nat) (op : Op) (w : World) : nat :=
  if finalizes l op w
  then length (filter (λ e, is_Fetch e = true)
                      (apply_op SUPABASE_URL SUPABASE_ANON_KEY op w).2)
  else 0%nat.

(** 1 when [op] is a finalisation of object [l] that is not a no-op. *)
Definition effective_here (l : nat) (op : Op) (w : World) : nat :=
  if finalizes l op w
     && negb (bool_decide (apply_op SUPABASE_URL SUPABASE_ANON_KEY op w = (w, [])))
  then 1%nat else 0%nat.

(** Sum of a per-step observation along a run. *)
Fixpoint tally (f : Op → World → nat) (ops : list Op) (w : World) : nat :=
  match ops with
  | [] => 0%nat
  | op :: ops' =>
    (f op w + tally f ops' (apply_op SUPABASE_URL SUPABASE_ANON_KEY op w).1)%nat
  end.

Fixpoint run_ops (ops : list Op) (w : World) : World * list Effect :=
  match ops with
  | [] => (w, [])
  | op :: ops' =>
    let '(w1, out1) := apply_op SUPABASE_URL SUPABASE_ANON_KEY op w in
    let '(w2, out2) := run_ops ops' w1 in
    (w2, out1 ++ out2)
  end.

End Counting.

(** ** Linking connection events to registry operations *)

(** Entry pushed by a transcript event of the AI leg, if any. *)
Definition entry_of (e : option OpenAIEvent) (now : Z) : option TranscriptEntry :=
  match e with
  | Some (ResponseAudioTranscriptDone t) =>
    s ← truthy_text t; Some (mkEntry Agent s now)
  | Some (InputAudioTranscriptionCompleted t) =>
    s ← truthy_text t; Some (mkEntry User s now)
  | _ => None
  end.

(** The registry operations an event performs, given the closure. *)
Definition ops_of (e : Event) (c : option Conn) : list Op :=
  match e, c with
  | Global op, _ => [op]
  | TwilioMessage (Some Stop) now, Some c => [CallEnd (sessionId c) (callSid c) now]
  | TwilioClosed now, Some c => [CallEnd (sessionId c) (callSid c) now]
  | OpenAIMessage _ ev now, Some c =>
    match entry_of ev now, session c with
    | Some en, Some l => [TranscriptPush l en]
    | _, _ => []
    end
  | _, _ => []
  end.

(** ** Worlds and frames used in the examples *)

Definition body_c1 : SessionBody :=
  mkBody (JString "Be concise") (JString "c-1") JUndefined JUndefined JUndefined.

(** Two sessions, ["s1"] created at time 1000 and ["s2"] at time 2000. *)
Definition world_two_sessions : World :=
  (post_session "s2" body_c1 2000 (post_session "s1" body_c1 1000 empty_world).1).1.

Definition start_frame (custom : option jsval) : TwilioMsg :=
  Start (Some (mkStart (JString "MZ1") (JString "CA1") custom)).

(** ** The readiness claim, as the specification words it *)

Definition ready (s : Sys) : bool :=
  match conn s with
  | Some c => openaiReady c
  | None => false
  end.


(** ** Session resolution and the AI leg *)

(** Revision A resolves the session when the connection arrives. *)
Definition resolves_at_connection (url_sessionId : jsval) (w : World) : bool :=
  truthy url_sessionId && bool_decide (is_Some (sessions_get url_sessionId w)).

(** Revision B resolves it at [start]: a session is already held, or the
    custom parameter names one. *)
Definition resolves_at_start (p : StartPayload) (c : Conn) (w : World) : bool :=
  bool_decide (is_Some (session c))
  || (truthy (custom_sessionId p)
      && bool_decide (is_Some (sessions_get (custom_sessionId p) w))).

(** A [start] frame, with its payload, that finds a session. *)
Definition successful_start (rev : Revision) (e : Event) (s : Sys) : bool :=
  match e, conn s with
  | TwilioMessage (Some (Start (Some p))) _, Some c =>
    match rev with
    | RevA => true
    | RevB => resolves_at_start p c (world s)
    end
  | _, _ => false
  end.

(** Effects that create or use an AI-leg socket. *)
Definition on_ai_leg (e : Effect) : bool :=
  match e with
  | NewWebSocket _ | OpenAISend _ _ | OpenAICloseCall _ => true
  | _ => false
  end.

(** An event of the AI leg can only come from a socket that was created. *)
Definition enabled (e : Event) (s : Sys) : bool :=
  match e with
  | OpenAIOpened k | OpenAIMessage k _ _ | OpenAIClosed k | OpenAIErrored k =>
    bool_decide (k < length (socks s))%nat
  | _ => true
  end.

(** A [start] frame whose payload carries a stream identifier other than
    null: the frames that take [streamSid] away from its initial value. *)
Definition sets_streamSid (e : Event) : bool :=
  match e with
  | TwilioMessage (Some (Start (Some p))) _ =>
    negb (bool_decide (start_streamSid p = JNull))
  | _ => false
  end.

(** A [start] frame that carries a payload. *)
Definition carries_start (e : Event) : bool :=
  match e with
  | TwilioMessage (Some (Start (Some _))) _ => true
  | _ => false
  end.

Section Traces.

Variable SUPABASE_URL SUPABASE_ANON_KEY : jsval.

(** No event of the run is a successful [start]. *)
Fixpoint no_successful_start (rev : Revision) (es : list Event) (s : Sys) : bool :=
  match es with
  | [] => true
  | e :: es' =>
    negb (successful_start rev e s)
    && no_successful_start rev es' (step SUPABASE_URL SUPABASE_ANON_KEY rev e s).1
  end.

End Traces.

Definition media_frame (payload : jsval) (now : Z) : Event :=
  TwilioMessage (Some (Media (Some payload))) now.

Definition speech_started (k : nat) (now : Z) : Event :=
  OpenAIMessage k (Some InputAudioBufferSpeechStarted) now.

Definition audio_delta (k : nat) (delta : jsval) (now : Z) : Event :=
  OpenAIMessage k (Some (ResponseAudioDelta delta)) now.

(** ** The transcript block, following the specification's words

    Each entry becomes one line, the speaker's label, a colon and a space,
    then the text; the lines are joined by newlines in transcript order. *)

Definition speaker_label (r : Role) : string :=
  match r with
  | User => "לקוח"
  | Agent => "סוכן"
  end.

Fixpoint labelled_lines (ts : list TranscriptEntry) : string :=
  match ts with
  | [] => ""
  | t :: rest =>
    (speaker_label (role t) ++ ": " ++ text t
     ++ match rest with
        | [] => ""
        | _ :: _ => newline ++ labelled_lines rest
        end)%string
  end.

(** The results-collector endpoint is configured. *)
Definition configured (url key : jsval) : bool := truthy url && truthy key.

(** A session that was created and never reached by any connection. *)
Definition world_one_session : World :=
  (post_session "s1" body_c1 1000 empty_world).1.

(** The first session after an assistant turn and a caller turn. *)
Definition world_with_transcript : World :=
  transcript_push 0 (mkEntry User "hi" 3400)
    (transcript_push 0 (mkEntry Agent "shalom" 3300) world_two_sessions).

(** The duration part of the claim, as the specification words it: the
    duration reported by a finalisation is never negative. *)
Definition duration_never_negative : Prop :=
  ∀ U K sid cs now w rep,
    In (Fetch rep) (handleCallEnd U K sid cs now w).2 → (0 ≤ r_duration rep)%Z.

Section TraceOps.

Variable SUPABASE_URL SUPABASE_ANON_KEY : jsval.

(** The registry operations performed along a run of a connection. *)
Fixpoint trace_ops (rev : Revision) (es : list Event) (s : Sys) : list Op :=
  match es with
  | [] => []
  | e :: es' =>
    ops_of e (conn s)
    ++ trace_ops rev es' (step SUPABASE_URL SUPABASE_ANON_KEY rev e s).1
  end.

End TraceOps.

(** A call on session ["s1"]: the stream starts, then stops, then the
    telephony connection closes. *)
Definition stop_then_close : list Event :=
  [TwilioMessage (Some (start_frame (Some (JString "s1")))) 3000;
   OpenAIOpened 0;
   TwilioMessage (Some Stop) 64500;
   TwilioClosed 64600].

(** ** Further observations: the registry *)

(** Every reference held by the [sessions] map points into the heap. *)
Definition refs_valid (w : World) : Prop :=
  ∀ id l, sessions w !! id = Some l → (l < length (heap w))%nat.

(** An identifier [uuidv4()] may return in world [w]: one the process has
    not handed out before, so that it is neither in the map nor awaited by a
    pending timer or a suspended finalisation. *)
Definition fresh_uuid (uuid : string) (w : World) : Prop :=
  sessions w !! uuid = None ∧ (uuid ∉ timers w) ∧ (uuid ∉ awaiting w).

(** Pending deletions and suspended finalisations only concern sessions
    that have ended. *)
Definition timers_ended (w : World) : Prop :=
  ∀ id l, id ∈ (timers w ++ awaiting w) →
          sessions w !! id = Some l → ended_at l w = true.

Section FreshRuns.

Variable SUPABASE_URL SUPABASE_ANON_KEY : jsval.

(** Every [POST /session] of the run gets a fresh identifier. *)
Fixpoint fresh_run (ops : list Op) (w : World) : Prop :=
  match ops with
  | [] => True
  | op :: ops' =>
    match op with
    | PostSession uuid _ _ => fresh_uuid uuid w
    | _ => True
    end
    ∧ fresh_run ops' (apply_op SUPABASE_URL SUPABASE_ANON_KEY op w).1
  end.

End FreshRuns.

(** ** Further observations: one connection *)

Section Causes.

Variable SUPABASE_URL SUPABASE_ANON_KEY : jsval.

(** Why a handler has an effect: [caused rev e s x] lists, for the event
    [e] handled in state [s], every effect [x] the handlers can have and the
    condition under which they have it. *)
Inductive caused (rev : Revision) (e : Event) (s : Sys) : Effect → Prop :=
| by_registry op x :
    In op (ops_of e (conn s)) →
    In x (apply_op SUPABASE_URL SUPABASE_ANON_KEY op (world s)).2 →
    caused rev e s x
| by_bad_frame c m now :
    conn s = Some c → e = TwilioMessage m now →
    m = None ∨ m = Some (Start None)
    ∨ (m = Some (Media None) ∧ openaiReady c && openai_is_open c (socks s) = true) →
    caused rev e s (ConsoleError ErrParseTwilio)
| by_failed_start c p now x :
    rev = RevB → conn s = Some c →
    e = TwilioMessage (Some (Start (Some p))) now →
    resolves_at_start p c (world s) = false →
    x = ConsoleError ErrNoValidSession ∨ x = TwilioCloseCall →
    caused rev e s x
| by_start :
    successful_start rev e s = true →
    caused rev e s (NewWebSocket (length (socks s)))
| by_media c k payload now :
    conn s = Some c → e = media_frame payload now →
    openaiReady c = true → openaiWs c = Some k → socks s !! k = Some OPEN →
    caused rev e s (OpenAISend k (InputAudioBufferAppend payload))
| by_close c k now :
    conn s = Some c → e = TwilioClosed now →
    openaiWs c = Some k → socks s !! k = Some OPEN →
    caused rev e s (OpenAICloseCall k)
| by_open c k j p :
    conn s = Some c → e = OpenAIOpened k →
    openaiWs c = Some j → session c ≫= (λ l, deref l (world s)) = Some p →
    <[k := OPEN]> (socks s) !! j = Some OPEN →
    caused rev e s (OpenAISend j (SessionUpdate (prompt p)))
| by_open_throws c k :
    conn s = Some c → e = OpenAIOpened k →
    openaiWs c = None ∨ session c ≫= (λ l, deref l (world s)) = None
    ∨ (∃ j, openaiWs c = Some j ∧ <[k := OPEN]> (socks s) !! j = Some CONNECTING) →
    caused rev e s Uncaught
| by_ack c k j now :
    conn s = Some c → e = OpenAIMessage k (Some SessionCreated) now →
    openaiWs c = Some j → socks s !! j = Some OPEN →
    caused rev e s (OpenAISend j ResponseCreate)
| by_delta c k delta now :
    conn s = Some c → e = audio_delta k delta now →
    truthy (streamSid c) = true → truthy delta = true →
    caused rev e s (TwilioSend (MediaOut (streamSid c) delta))
| by_speech c k now :
    conn s = Some c → e = speech_started k now →
    caused rev e s (TwilioSend (ClearOut (streamSid c)))
| by_bad_event c k ev now :
    conn s = Some c → e = OpenAIMessage k ev now →
    ev = None
    ∨ (ev = Some SessionCreated
       ∧ (openaiWs c = None
          ∨ ∃ j, openaiWs c = Some j ∧ socks s !! j = Some CONNECTING))
    ∨ (is_Some (entry_of ev now) ∧ session c = None) →
    caused rev e s (ConsoleError ErrParseOpenAI)
| by_error_event c k :
    conn s = Some c →
    e = OpenAIErrored k ∨ (∃ now, e = OpenAIMessage k (Some ErrorEvent) now) →
    caused rev e s (ConsoleError ErrOpenAI).

Fixpoint feasible (rev : Revision) (es : list Event) (s : Sys) : bool :=
  match es with
  | [] => true
  | e :: es' =>
    enabled e s
    && feasible rev es' (step SUPABASE_URL SUPABASE_ANON_KEY rev e s).1
  end.

(** Number of successful [start] frames in a run. *)
Fixpoint successful_starts (rev : Revision) (es : list Event) (s : Sys) : nat :=
  match es with
  | [] => 0%nat
  | e :: es' =>
    ((if successful_start rev e s then 1 else 0)
     + successful_starts rev es' (step SUPABASE_URL SUPABASE_ANON_KEY rev e s).1)%nat
  end.

End Causes.

(** Messages received on the AI leg, as events and as the transcript
    entries they carry. *)
Definition ai_messages (msgs : list (nat * option OpenAIEvent * Z)) : list Event :=
  map (λ m, OpenAIMessage m.1.1 m.1.2 m.2) msgs.

Definition entries_of (msgs : list (nat * option OpenAIEvent * Z))
  : list TranscriptEntry :=
  omap (λ m, entry_of m.1.2 m.2) msgs.

Definition is_OpenAIOpened (e : Event) : bool :=
  match e with
  | OpenAIOpened _ => true
  | _ => false
  end.

Definition is_audio_append (x : Effect) : bool :=
  match x with
  | OpenAISend _ (InputAudioBufferAppend _) => true
  | _ => false
  end.

(** The socket last created, if any. *)
Definition latest (ss : list ReadyState) : option nat :=
  match length ss with
  | O => None
  | S n => Some n
  end.

(** What holds of a connection's closure on every run: the registry's
    references are valid; sockets exist only once [openaiWs] is set, which
    happens only after a session was resolved; revision A has its session
    from the start; the session reference points into the heap. *)
Definition conn_wf (rev : Revision) (s : Sys) : Prop :=
  refs_valid (world s)
  ∧ ∀ c, conn s = Some c →
      (socks s ≠ [] → is_Some (openaiWs c))
      ∧ (is_Some (openaiWs c) → is_Some (session c))
      ∧ (rev = RevA → is_Some (session c))
      ∧ (∀ l, session c = Some l → (l < length (heap (world s)))%nat).

(** * Properties *)

(** ** Heap and registry lemmas *)

Lemma deref_store_eq l s w s0 :
  deref l w = Some s0 → deref l (store l s w) = Some s.
Proof.
  unfold deref, store; simpl. intros H.
  apply list_lookup_insert_eq. eapply lookup_lt_Some; eauto.
Qed.

Lemma deref_store_ne l l' s w :
  l ≠ l' → deref l' (store l s w) = deref l' w.
Proof. unfold deref, store; simpl. intros H. by apply list_lookup_insert_ne. Qed.

Lemma pending_session_Some sid w id l s :
  pending_session sid w = Some (id, l, s) →
  sid = JString id ∧ sessions w !! id = Some l ∧ deref l w = Some s ∧ _ended s = false.
Proof.
  unfold pending_session. destruct sid as [| |x]; try done.
  destruct (sessions w !! x) as [l'|] eqn:Hl; simpl; [|done].
  destruct (deref l' w) as [s'|] eqn:Hs; simpl; [|done].
  destruct (_ended s') eqn:He; [done|].
  intros [= <- <- <-]. done.
Qed.

(** An invocation that finds no session, or an ended one, does nothing. *)
Lemma handleCallEnd_idle U K sid cs now w :
  pending_session sid w = None → handleCallEnd U K sid cs now w = (w, []).
Proof.
  unfold pending_session, handleCallEnd, sessions_get.
  destruct sid as [| |x]; try done.
  destruct (sessions w !! x) as [l|]; simpl; [|done].
  destruct (deref l w) as [s|]; simpl; [|done].
  by destruct (_ended s).
Qed.

(** The invocation that finds a live session. *)
Lemma handleCallEnd_first U K sid cs now w id l s :
  pending_session sid w = Some (id, l, s) →
  handleCallEnd U K sid cs now w =
    if truthy U && truthy K && truthy (callId s)
    then ({| heap := <[l := set_ended s]> (heap w); sessions := sessions w;
             awaiting := awaiting w ++ [id]; timers := timers w |},
          [ConsoleLog (LogCallEnded (Math_round_div1000 (now - createdAt s)));
           Fetch (make_report s cs now)])
    else ({| heap := <[l := set_ended s]> (heap w); sessions := sessions w;
             awaiting := awaiting w; timers := timers w ++ [id] |},
          [ConsoleLog (LogCallEnded (Math_round_div1000 (now - createdAt s)));
           SetTimeout id GRACE_MS]).
Proof.
  intros (-> & Hl & Hs & He)%pending_session_Some.
  unfold handleCallEnd, sessions_get. rewrite Hl, Hs, He. done.
Qed.

Lemma handleCallEnd_first_ended U K sid cs now w id l s :
  pending_session sid w = Some (id, l, s) →
  ended_at l (handleCallEnd U K sid cs now w).1 = true.
Proof.
  intros H. rewrite (handleCallEnd_first _ _ _ _ _ _ _ _ _ H).
  apply pending_session_Some in H as (_ & _ & Hs & _).
  unfold ended_at, deref in *.
  assert (l < length (heap w))%nat by (eapply lookup_lt_Some; eauto).
  destruct (_ && _); simpl; by rewrite list_lookup_insert_eq.
Qed.

(** Every registry operation keeps the objects of the heap in place,
    with their creation time, and never clears [_ended]. *)
Lemma apply_op_deref U K op w l s :
  deref l w = Some s →
  ∃ s', deref l (apply_op U K op w).1 = Some s'
        ∧ createdAt s' = createdAt s
        ∧ (_ended s = true → _ended s' = true).
Proof.
  intros Hs. destruct op as [uuid b now|sid cs now|i o|i|now|l0 e]; simpl.
  - exists s. split; [|done]. unfold deref in *; simpl.
    rewrite lookup_app_l; [done|]. eapply lookup_lt_Some; eauto.
  - destruct (pending_session sid w) as [[[id l0] s0]|] eqn:Hp.
    + rewrite (handleCallEnd_first _ _ _ _ _ _ _ _ _ Hp).
      apply pending_session_Some in Hp as (_ & _ & Hs0 & He0).
      destruct (decide (l0 = l)) as [->|Hne].
      * assert (s0 = s) as -> by (unfold deref in *; congruence).
        exists (set_ended s). unfold deref in *.
        assert (l < length (heap w))%nat by (eapply lookup_lt_Some; eauto).
        destruct (_ && _); simpl; by rewrite list_lookup_insert_eq.
      * exists s. unfold deref in *.
        destruct (_ && _); simpl; by rewrite list_lookup_insert_ne.
    + rewrite handleCallEnd_idle by done. eauto.
  - unfold handleCallEnd_resume. destruct (awaiting w !! i); simpl; eauto.
  - unfold timer_fired. destruct (timers w !! i); simpl; eauto.
  - eauto.
  - unfold transcript_push. destruct (deref l0 w) as [s0|] eqn:Hs0; [|eauto].
    destruct (decide (l0 = l)) as [->|Hne].
    + assert (s0 = s) as -> by congruence.
      exists (push_transcript e s). by rewrite (deref_store_eq _ _ _ s).
    + exists s. by rewrite deref_store_ne.
Qed.

Lemma apply_op_ended_mono U K op w l :
  ended_at l w = true → ended_at l (apply_op U K op w).1 = true.
Proof.
  unfold ended_at. destruct (deref l w) as [s|] eqn:Hs; [|done].
  intros He. destruct (apply_op_deref U K op w l s Hs) as (s' & -> & _ & H). auto.
Qed.

(** A finalisation of an ended object is a no-op. *)
Lemma finalizes_ended_idle U K l op w :
  finalizes l op w = true → ended_at l w = true →
  apply_op U K op w = (w, []).
Proof.
  destruct op as [| sid cs now | | | |]; try done. simpl.
  intros Hf%bool_decide_eq_true He. apply handleCallEnd_idle.
  unfold pending_session, sessions_get, ended_at in *.
  destruct sid as [| |x]; try done. rewrite Hf. simpl.
  destruct (deref l w); simpl; [by rewrite He|done].
Qed.

Lemma tally_ended_zero U K l ops : ∀ w,
  ended_at l w = true →
  tally U K (flip_here U K l) ops w = 0%nat
  ∧ tally U K (reports_here U K l) ops w = 0%nat
  ∧ tally U K (effective_here U K l) ops w = 0%nat.
Proof.
  induction ops as [|op ops IH]; intros w He; [done|]. simpl.
  destruct (IH _ (apply_op_ended_mono U K op w l He)) as (-> & -> & ->).
  unfold flip_here, reports_here, effective_here. rewrite He. simpl.
  destruct (finalizes l op w) eqn:Hf; [|done].
  rewrite (finalizes_ended_idle U K l op w Hf He). simpl.
  by rewrite bool_decide_eq_true_2.
Qed.

(** A step that counts for object [l] leaves it ended. *)
Lemma counted_step_ends U K l op w :
  (flip_here U K l op w ≤ 1 ∧ reports_here U K l op w ≤ 1 ∧ effective_here U K l op w ≤ 1)%nat
  ∧ ((flip_here U K l op w + reports_here U K l op w + effective_here U K l op w ≠ 0)%nat →
     ended_at l (apply_op U K op w).1 = true).
Proof.
  unfold flip_here, reports_here, effective_here.
  destruct (ended_at l w) eqn:He.
  { simpl. destruct (finalizes l op w) eqn:Hf.
    - rewrite (finalizes_ended_idle U K l op w Hf He). simpl.
      rewrite bool_decide_eq_true_2 by done. simpl. split; [lia|]. lia.
    - simpl. split; [lia|lia]. }
  simpl. destruct (ended_at l (apply_op U K op w).1) eqn:He'.
  { split; [|done]. split; [lia|]. split; [|destruct (_ && _); lia].
    destruct (finalizes l op w) eqn:Hf; [|lia].
    destruct op as [| sid cs now | | | |]; try done. simpl.
    destruct (pending_session sid w) as [[[id l0] s0]|] eqn:Hp.
    - rewrite (handleCallEnd_first _ _ _ _ _ _ _ _ _ Hp).
      destruct (_ && _); simpl; lia.
    - rewrite handleCallEnd_idle by done. simpl; lia. }
  assert (finalizes l op w = true → apply_op U K op w = (w, [])) as Hidle.
  { destruct op as [| sid cs now | | | |]; try done. simpl.
    intros Hf%bool_decide_eq_true.
    destruct (pending_session sid w) as [[[id l0] s0]|] eqn:Hp.
    - pose proof (handleCallEnd_first_ended U K _ cs now _ _ _ _ Hp) as Hend.
      apply pending_session_Some in Hp as (-> & Hl & _). simpl in Hf.
      assert (l0 = l) as -> by congruence. unfold apply_op in He'. congruence.
    - by apply handleCallEnd_idle. }
  destruct (finalizes l op w) eqn:Hf; simpl.
  - rewrite Hidle by done. simpl. rewrite bool_decide_eq_true_2 by done. simpl.
    split; [lia|]. lia.
  - split; [lia|]. lia.
Qed.

(** ** C1: finalisation happens at most once *)

Lemma tally_at_most_once U K l ops : ∀ w,
  (tally U K (flip_here U K l) ops w ≤ 1
   ∧ tally U K (reports_here U K l) ops w ≤ 1
   ∧ tally U K (effective_here U K l) ops w ≤ 1)%nat.
Proof.
  induction ops as [|op ops IH]; intros w; simpl; [lia|].
  destruct (counted_step_ends U K l op w) as ((Hf & Hr & He) & Hend).
  destruct (decide ((flip_here U K l op w + reports_here U K l op w
                     + effective_here U K l op w)%nat = 0%nat)) as [Hz|Hnz].
  - specialize (IH (apply_op U K op w).1). lia.
  - destruct (tally_ended_zero U K l ops _ (Hend Hnz)) as (-> & -> & ->). lia.
Qed.

(** C1.  Along every sequence of registry operations (finalisations issued
    by stop events and by connection closes of any connection, interleaved
    with session creation, settled reports, grace timers, sweeps and
    transcript writes) and for every session object: its [_ended] flag goes
    from false to true at most once, at most one results report is issued for
    it, and at most one finalisation of it is not a no-op.  An invocation
    that finds no session, or an ended one, returns the state unchanged with
    no effect, and so does an invocation that directly follows another one
    for the same identifier. *)
Theorem handleCallEnd_at_most_once U K (ops : list Op) (w : World) (l : nat) :
  (tally U K (flip_here U K l) ops w ≤ 1)%nat
  ∧ (tally U K (reports_here U K l) ops w ≤ 1)%nat
  ∧ (tally U K (effective_here U K l) ops w ≤ 1)%nat
  ∧ (∀ sid cs now, sessions_get sid w = None →
       handleCallEnd U K sid cs now w = (w, []))
  ∧ (∀ sid cs now, sessions_get sid w = Some l → ended_at l w = true →
       handleCallEnd U K sid cs now w = (w, []))
  ∧ (∀ sid cs now cs' now',
       handleCallEnd U K sid cs' now' (handleCallEnd U K sid cs now w).1
       = ((handleCallEnd U K sid cs now w).1, [])).
Proof.
  destruct (tally_at_most_once U K l ops w) as (H1 & H2 & H3).
  refine (conj H1 (conj H2 (conj H3 (conj _ (conj _ _))))).
  - intros sid cs now Hn. apply handleCallEnd_idle.
    unfold pending_session, sessions_get in *. destruct sid; try done.
    by rewrite Hn.
  - intros sid cs now Hl He.
    apply (finalizes_ended_idle U K l (CallEnd sid cs now) w); [|done].
    simpl. by apply bool_decide_eq_true_2.
  - intros sid cs now cs' now'.
    destruct (pending_session sid w) as [[[id l0] s0]|] eqn:Hp.
    + pose proof (handleCallEnd_first_ended U K _ cs now _ _ _ _ Hp) as Hend.
      apply (finalizes_ended_idle U K l0 (CallEnd sid cs' now')); [|done].
      simpl. apply bool_decide_eq_true_2.
      rewrite (handleCallEnd_first _ _ _ _ _ _ _ _ _ Hp).
      apply pending_session_Some in Hp as (-> & Hl & _).
      unfold sessions_get. by destruct (_ && _).
    + rewrite (handleCallEnd_idle U K sid cs now w Hp). cbn [fst].
      by apply handleCallEnd_idle.
Qed.

Lemma handleCallEnd_at_most_once_witness :
  let U := JString "https://collector.example" in
  let K := JString "anon" in
  let ops := [CallEnd (JString "s1") (JString "CA1") 64500;
              CallEnd (JString "s1") (JString "CA1") 64600;
              FetchSettled 0 RespOk;
              CallEnd (JString "s1") (JString "CA1") 64700;
              TimerFired 0;
              CallEnd (JString "s1") (JString "CA1") 364800] in
  sessions_get (JString "s1") world_two_sessions = Some 0%nat
  ∧ (tally U K (flip_here U K 0) ops world_two_sessions ≤ 1)%nat
  ∧ (tally U K (reports_here U K 0) ops world_two_sessions ≤ 1)%nat
  ∧ (tally U K (effective_here U K 0) ops world_two_sessions ≤ 1)%nat.
Proof.
  split; [reflexivity|].
  pose proof (handleCallEnd_at_most_once
    (JString "https://collector.example") (JString "anon")
    [CallEnd (JString "s1") (JString "CA1") 64500;
     CallEnd (JString "s1") (JString "CA1") 64600;
     FetchSettled 0 RespOk;
     CallEnd (JString "s1") (JString "CA1") 64700;
     TimerFired 0;
     CallEnd (JString "s1") (JString "CA1") 364800]
    world_two_sessions 0%nat) as (H1 & H2 & H3 & _).
  exact (conj H1 (conj H2 H3)).
Defined.

(** The counters are not vacuous: in that run the flag flips once, one
    report is issued and one finalisation is effective. *)
Example tally_on_a_call :
  let U := JString "https://collector.example" in
  let K := JString "anon" in
  let ops := [CallEnd (JString "s1") (JString "CA1") 64500;
              CallEnd (JString "s1") (JString "CA1") 64600;
              FetchSettled 0 RespOk;
              TimerFired 0;
              CallEnd (JString "s1") (JString "CA1") 364800] in
  tally U K (flip_here U K 0) ops world_two_sessions = 1%nat
  ∧ tally U K (reports_here U K 0) ops world_two_sessions = 1%nat
  ∧ tally U K (effective_here U K 0) ops world_two_sessions = 1%nat.
Proof. vm_compute. done. Qed.


(** ** A connection reaches the registry only through registry operations *)

Lemma step_world U K rev e s :
  world (step U K rev e s).1 = (run_ops U K (ops_of e (conn s)) (world s)).1.
Proof.
  destruct s as [w ss oc].
  destruct e as [op|m now|now|k|k ev now|k|k]; simpl.
  - by destruct (apply_op U K op w).
  - destruct oc as [c|]; [|by destruct m as [[]|]].
    destruct m as [[|[p|]|media| |]|]; simpl; try reflexivity.
    + by destruct (twilio_on_start rev p c w ss) as [[c' ss'] effs].
    + by destruct (handleCallEnd U K (sessionId c) (callSid c) now w).
  - destruct oc as [c|]; [|done]. simpl. unfold twilio_on_close.
    destruct (match openaiWs c with
              | Some k => if openai_is_open c ss
                          then (<[k:=CLOSING]> ss, [OpenAICloseCall k]) else (ss, [])
              | None => (ss, []) end) as [ss' e1].
    by destruct (handleCallEnd U K (sessionId c) (callSid c) now w).
  - destruct oc as [c|]; [|done]. simpl.
    by destruct (openai_on_open c w (<[k:=OPEN]> ss)).
  - destruct oc as [c|]; [|done]. simpl. unfold openai_on_message.
    destruct ev as [[]|]; simpl; try reflexivity.
    + destruct (openaiWs c) as [j|]; simpl; [|done]. by destruct (ws_send ss j).
    + by destruct (truthy (streamSid c) && truthy delta).
    + destruct (truthy_text t); simpl; [|done]. by destruct (session c).
    + destruct (truthy_text t); simpl; [|done]. by destruct (session c).
  - by destruct oc.
  - by destruct oc.
Qed.

(** ** C2: when the AI leg is marked ready *)

Lemma twilio_on_start_ready rev p c w ss :
  openaiReady (twilio_on_start rev p c w ss).1.1 = openaiReady c.
Proof.
  unfold twilio_on_start, connectOpenAI. destruct rev; simpl; [done|].
  destruct (session c); simpl; [done|].
  destruct (truthy (custom_sessionId p)); simpl; [|done].
  by destruct (sessions_get (custom_sessionId p) w).
Qed.




(** A second [start] frame before the first socket has opened: the [open]
    event of the first socket finds the closure holding the second one, still
    CONNECTING; the handler throws and the leg is not marked ready. *)
Example stale_open_throws :
  run JUndefined JUndefined RevB
      [TwilioMessage (Some (start_frame (Some (JString "s1")))) 3000;
       TwilioMessage (Some (start_frame (Some (JString "s1")))) 3010;
       OpenAIOpened 0]
      (connect RevB JNull world_two_sessions).1
  = ({| world := world_two_sessions; socks := [OPEN; CONNECTING];
        conn := Some {| sessionId := JString "s1"; session := Some 0%nat;
                        streamSid := JString "MZ1"; callSid := JString "CA1";
                        openaiWs := Some 1%nat; openaiReady := false |} |},
     [NewWebSocket 0; NewWebSocket 1; Uncaught]).
Proof. vm_compute. done. Qed.

(** ** C3: which identifier resolves the session *)

(** In revision B, a session found through the URL is kept whatever the
    custom parameter says. *)
Lemma start_keeps_url_session p c w ss l :
  session c = Some l →
  (twilio_on_start RevB p c w ss).1.1 =
    {| sessionId := sessionId c; session := Some l;
       streamSid := start_streamSid p; callSid := start_callSid p;
       openaiWs := Some (length ss); openaiReady := openaiReady c |}.
Proof. intros H. unfold twilio_on_start, connectOpenAI; simpl. by rewrite H. Qed.

(** C3, the code at the failing input.  The connection URL names session
    ["s1"] and the [start] frame carries the custom parameter ["s2"]; both
    are registered.  The connection ends up bound to ["s1"] (object 0), not
    to the session of the custom parameter (object 1). *)
Lemma start_resolves_url_before_custom :
  let s := (run JUndefined JUndefined RevB
                [TwilioMessage (Some (start_frame (Some (JString "s2")))) 3000]
                (connect RevB (JString "s1") world_two_sessions).1).1 in
  sessions_get (JString "s2") world_two_sessions = Some 1%nat
  ∧ (sessionId <$> conn s) = Some (JString "s1")
  ∧ (conn s ≫= session) = Some 0%nat.
Proof. vm_compute. done. Qed.

(** ** Runs *)

Lemma run_app U K rev es1 es2 : ∀ s,
  run U K rev (es1 ++ es2) s =
    ((run U K rev es2 (run U K rev es1 s).1).1,
     (run U K rev es1 s).2 ++ (run U K rev es2 (run U K rev es1 s).1).2).
Proof.
  induction es1 as [|e es1 IH]; intros s; simpl.
  - by destruct (run U K rev es2 s).
  - destruct (step U K rev e s) as [s1 o1]. rewrite IH.
    destruct (run U K rev es1 s1) as [s2 o2]; simpl.
    destruct (run U K rev es2 s2) as [s3 o3]; simpl.
    by rewrite app_assoc.
Qed.

Lemma run_cons U K rev e es s :
  run U K rev (e :: es) s =
    ((run U K rev es (step U K rev e s).1).1,
     (step U K rev e s).2 ++ (run U K rev es (step U K rev e s).1).2).
Proof.
  simpl. destruct (step U K rev e s) as [s1 o1]. simpl.
  by destruct (run U K rev es s1) as [s2 o2].
Qed.

(** ** C4: no AI leg without a successful start *)

(** While no socket has been created, a step that is not a successful
    start creates none and does not touch the AI leg. *)
Lemma step_without_start U K rev e s :
  conn s ≫= openaiWs = None → socks s = [] →
  successful_start rev e s = false →
  conn (step U K rev e s).1 ≫= openaiWs = None
  ∧ socks (step U K rev e s).1 = []
  ∧ Forall (λ x, on_ai_leg x = false) (step U K rev e s).2.
Proof.
  destruct s as [w ss oc]. simpl. intros Hws -> Hns.
  destruct e as [op|m now|now|k|k ev now|k|k]; simpl.
  - destruct (apply_op U K op w) as [w' effs] eqn:Hop; simpl.
    split; [done|split; [done|]].
    destruct op as [uuid b t|sid cs t|i o|i|t|l en]; simpl in Hop.
    + injection Hop as <- <-. repeat constructor.
    + destruct (pending_session sid w) as [[[id l0] s0]|] eqn:Hp.
      * rewrite (handleCallEnd_first _ _ _ _ _ _ _ _ _ Hp) in Hop.
        destruct (_ && _); injection Hop as <- <-; repeat constructor.
      * rewrite handleCallEnd_idle in Hop by done. injection Hop as <- <-.
        constructor.
    + unfold handleCallEnd_resume in Hop.
      destruct (awaiting w !! i); injection Hop as <- <-.
      * destruct o; repeat constructor.
      * constructor.
    + injection Hop as <- <-. constructor.
    + injection Hop as <- <-. constructor.
    + injection Hop as <- <-. constructor.
  - destruct oc as [c|]; [|by destruct m as [[]|]; repeat constructor].
    simpl in Hws, Hns.
    destruct m as [[|[p|]|media| |]|]; simpl; try (by repeat constructor).
    + destruct rev; [done|]. unfold twilio_on_start. simpl.
      unfold resolves_at_start in Hns.
      destruct (session c) as [l|]; simpl in *; [done|].
      destruct (truthy (custom_sessionId p)); simpl in *.
      * destruct (sessions_get (custom_sessionId p) w) as [l|] eqn:Hg; simpl in *.
        { done. }
        repeat constructor; done.
      * destruct (session c) eqn:Hs; simpl; repeat constructor; done.
    + unfold twilio_on_media, openai_is_open. rewrite Hws.
      rewrite andb_false_r. repeat constructor; done.
    + destruct (handleCallEnd U K (sessionId c) (callSid c) now w)
        as [w' effs] eqn:Hop; simpl.
      split; [done|split; [done|]].
      destruct (pending_session (sessionId c) w) as [[[id l0] s0]|] eqn:Hp.
      * rewrite (handleCallEnd_first _ _ _ _ _ _ _ _ _ Hp) in Hop.
        destruct (_ && _); injection Hop as <- <-; repeat constructor.
      * rewrite handleCallEnd_idle in Hop by done. injection Hop as <- <-.
        constructor.
  - destruct oc as [c|]; [|by repeat constructor]. simpl in Hws.
    unfold twilio_on_close. rewrite Hws.
    destruct (handleCallEnd U K (sessionId c) (callSid c) now w)
      as [w' effs] eqn:Hop; simpl.
    split; [done|split; [done|]].
    destruct (pending_session (sessionId c) w) as [[[id l0] s0]|] eqn:Hp.
    + rewrite (handleCallEnd_first _ _ _ _ _ _ _ _ _ Hp) in Hop.
      destruct (_ && _); injection Hop as <- <-; repeat constructor.
    + rewrite handleCallEnd_idle in Hop by done. injection Hop as <- <-.
      constructor.
  - destruct oc as [c|]; [|by repeat constructor]. simpl in Hws.
    unfold openai_on_open. rewrite Hws. simpl. repeat constructor; done.
  - destruct oc as [c|]; [|by repeat constructor]. simpl in Hws.
    unfold openai_on_message.
    destruct ev as [[]|]; simpl; try rewrite Hws; try (by repeat constructor).
    + destruct (truthy (streamSid c) && truthy delta); by repeat constructor.
    + destruct (truthy_text t); simpl; [|by repeat constructor].
      destruct (session c); by repeat constructor.
    + destruct (truthy_text t); simpl; [|by repeat constructor].
      destruct (session c); by repeat constructor.
  - destruct oc as [c|]; [|by repeat constructor]. simpl in *.
    by repeat constructor.
  - destruct oc as [c|]; by repeat constructor.
Qed.

Lemma run_without_start U K rev es : ∀ s,
  conn s ≫= openaiWs = None → socks s = [] →
  no_successful_start U K rev es s = true →
  conn (run U K rev es s).1 ≫= openaiWs = None
  ∧ socks (run U K rev es s).1 = []
  ∧ Forall (λ x, on_ai_leg x = false) (run U K rev es s).2.
Proof.
  induction es as [|e es IH]; intros s Hws Hss Hns.
  - simpl. by repeat constructor.
  - simpl in Hns. apply andb_true_iff in Hns as [Hn1%negb_true_iff Hn2].
    destruct (step_without_start U K rev e s Hws Hss Hn1) as (H1 & H2 & H3).
    destruct (IH _ H1 H2 Hn2) as (H4 & H5 & H6).
    rewrite run_cons. simpl. split; [done|split; [done|]].
    by apply Forall_app.
Qed.

Lemma connect_fresh rev url w :
  conn (connect rev url w).1 ≫= openaiWs = None ∧ socks (connect rev url w).1 = [].
Proof.
  unfold connect, on_connection. destruct rev; simpl; [|done].
  by destruct (_ || _).
Qed.

(** C4.  On a connection none of whose [start] frames resolves a session,
    whatever else is delivered, no AI-leg socket is ever created, none is
    held by the closure, and nothing is sent or closed on the AI leg.  A
    [start] frame that fails to resolve (revision B) logs and closes the
    telephony connection at once; a connection whose URL names no session
    (revision A) is closed at once and gets no handlers. *)
Theorem no_ai_leg_without_successful_start U K rev url w es :
  (no_successful_start U K rev es (connect rev url w).1 = true →
     conn (run U K rev es (connect rev url w).1).1 ≫= openaiWs = None
     ∧ socks (run U K rev es (connect rev url w).1).1 = []
     ∧ Forall (λ x, on_ai_leg x = false) (run U K rev es (connect rev url w).1).2)
  ∧ (∀ s c p now,
       conn s = Some c → resolves_at_start p c (world s) = false →
       (step U K RevB (TwilioMessage (Some (Start (Some p))) now) s).2
         = [ConsoleError ErrNoValidSession; TwilioCloseCall]
       ∧ openaiWs <$> conn (step U K RevB (TwilioMessage (Some (Start (Some p))) now) s).1
         = Some (openaiWs c)
       ∧ socks (step U K RevB (TwilioMessage (Some (Start (Some p))) now) s).1 = socks s)
  ∧ (resolves_at_connection url w = false →
       connect RevA url w =
         ({| world := w; socks := []; conn := None |},
          [ConsoleError ErrInvalidSession; TwilioCloseCall])).
Proof.
  split; [|split].
  - intros Hns. destruct (connect_fresh rev url w) as [H1 H2].
    by apply run_without_start.
  - intros s c p now Hc Hr. destruct s as [w0 ss oc]. simpl in *. subst oc.
    simpl. unfold twilio_on_start. simpl. unfold resolves_at_start in Hr.
    destruct (session c) as [l|]; simpl in *; [done|].
    destruct (truthy (custom_sessionId p)); simpl in *.
    + destruct (sessions_get (custom_sessionId p) w0) as [l|] eqn:Hg; simpl in *.
      { done. }
      done.
    + destruct (session c) eqn:Hs; done.
  - intros Hr. unfold connect, on_connection, resolves_at_connection in *.
    destruct (truthy url); simpl in *.
    + destruct (bool_decide _); simpl in *; done.
    + done.
Qed.

Lemma no_ai_leg_without_successful_start_witness :
  let es := [TwilioMessage (Some (start_frame (Some (JString "nope")))) 3000;
             OpenAIOpened 0;
             TwilioMessage (Some (Media (Some (JString "frame")))) 3100;
             TwilioMessage (Some Stop) 3200] in
  let s0 := (connect RevB JNull world_two_sessions).1 in
  no_successful_start JUndefined JUndefined RevB es s0 = true
  ∧ conn (run JUndefined JUndefined RevB es s0).1 ≫= openaiWs = None
  ∧ socks (run JUndefined JUndefined RevB es s0).1 = []
  ∧ Forall (λ x, on_ai_leg x = false) (run JUndefined JUndefined RevB es s0).2.
Proof.
  split; [reflexivity|].
  apply (proj1 (no_ai_leg_without_successful_start JUndefined JUndefined RevB JNull
                  world_two_sessions _)).
  reflexivity.
Defined.

(** ** Runs of a connection, seen from the registry *)

Lemma run_ops_app U K ops1 ops2 : ∀ w,
  (run_ops U K (ops1 ++ ops2) w).1
  = (run_ops U K ops2 (run_ops U K ops1 w).1).1.
Proof.
  induction ops1 as [|op ops1 IH]; intros w; simpl; [done|].
  destruct (apply_op U K op w) as [w1 o1]. specialize (IH w1).
  destruct (run_ops U K (ops1 ++ ops2) w1), (run_ops U K ops1 w1). done.
Qed.

(** The registry sees a run of a connection as the run of its registry
    operations, so what holds of all sequences of operations holds of every
    connection. *)
Lemma run_world U K rev es : ∀ s,
  world (run U K rev es s).1 = (run_ops U K (trace_ops U K rev es s) (world s)).1.
Proof.
  induction es as [|e es IH]; intros s; [done|].
  rewrite run_cons. simpl. rewrite run_ops_app, IH. by rewrite step_world.
Qed.

(** Stop followed by close on the same connection: one report. *)
Example stop_then_close_reports_once :
  let U := JString "https://collector.example" in
  let K := JString "anon" in
  filter (λ e, is_Fetch e = true)
         (run U K RevB stop_then_close (connect RevB JNull world_two_sessions).1).2
  = [Fetch {| r_type := "openai-realtime-end"; r_callId := JString "c-1";
              r_callSid := JString "CA1"; r_transcript := "";
              r_duration := 64; r_endedReason := "call_ended" |}]
  ∧ trace_ops U K RevB stop_then_close (connect RevB JNull world_two_sessions).1
    = [CallEnd (JString "s1") (JString "CA1") 64500;
       CallEnd (JString "s1") (JString "CA1") 64600].
Proof. vm_compute. done. Qed.

(** ** C5: caller audio is forwarded only to a ready, open AI leg *)

Lemma step_media U K rev payload now s c :
  conn s = Some c →
  step U K rev (media_frame payload now) s
  = (s, twilio_on_media (Some payload) c (socks s)).
Proof. destruct s as [w ss oc]. simpl. by intros ->. Qed.

(** C5.  A media frame leaves the whole state as it was.  It is sent on
    the AI leg exactly when [openaiReady] is true and the socket held in
    [openaiWs] is in state OPEN, as a single append message to that socket;
    otherwise the handler has no effect at all.  What follows is computed
    from the unchanged state, so the effects of any later events are those
    of a run in which the frame never arrived: nothing is kept of a dropped
    frame and nothing is sent later. *)
Theorem media_forwarded_iff_ready U K rev (s : Sys) (c : Conn)
    (payload : jsval) (now : Z) (es : list Event) :
  conn s = Some c →
  (step U K rev (media_frame payload now) s).1 = s
  ∧ ((∃ k, In (OpenAISend k (InputAudioBufferAppend payload))
              (step U K rev (media_frame payload now) s).2)
     ↔ openaiReady c = true ∧ openai_is_open c (socks s) = true)
  ∧ (openaiReady c = true → openai_is_open c (socks s) = true →
     ∃ k, openaiWs c = Some k ∧ socks s !! k = Some OPEN
          ∧ (step U K rev (media_frame payload now) s).2
            = [OpenAISend k (InputAudioBufferAppend payload)])
  ∧ (openaiReady c && openai_is_open c (socks s) = false →
     (step U K rev (media_frame payload now) s).2 = [])
  ∧ run U K rev (media_frame payload now :: es) s
    = ((run U K rev es s).1,
       (step U K rev (media_frame payload now) s).2 ++ (run U K rev es s).2).
Proof.
  intros Hc. rewrite run_cons, (step_media U K rev payload now s c Hc). simpl.
  unfold twilio_on_media, openai_is_open.
  split; [done|]. split; [|split; [|split; [|done]]].
  - destruct (openaiReady c); simpl.
    + destruct (openaiWs c) as [k|]; simpl.
      * destruct (bool_decide (socks s !! k = Some OPEN)); simpl.
        -- split; [done|]. intros _. exists k. by left.
        -- split; [by intros [? []]|]. by intros [_ ?].
      * split; [by intros [? []]|]. by intros [_ ?].
    + split; [by intros [? []]|]. by intros [? _].
  - intros -> Ho. destruct (openaiWs c) as [k|]; [|done].
    exists k. rewrite Ho. apply bool_decide_eq_true in Ho. done.
  - by intros ->.
Qed.

Lemma media_forwarded_iff_ready_witness :
  let s := (run JUndefined JUndefined RevB
              [TwilioMessage (Some (start_frame (Some (JString "s1")))) 3000]
              (connect RevB JNull world_two_sessions).1).1 in
  let c := {| sessionId := JString "s1"; session := Some 0%nat;
              streamSid := JString "MZ1"; callSid := JString "CA1";
              openaiWs := Some 0%nat; openaiReady := false |} in
  conn s = Some c
  ∧ openaiReady c && openai_is_open c (socks s) = false
  ∧ (step JUndefined JUndefined RevB (media_frame (JString "frame") 3100) s).2 = [].
Proof.
  split; [reflexivity|]. split; [reflexivity|].
  refine (proj1 (proj2 (proj2 (proj2
    (media_forwarded_iff_ready JUndefined JUndefined RevB _ _
       (JString "frame") 3100 [] _)))) _); reflexivity.
Defined.

(** ** C6: barge-in *)

Lemma step_speech_started U K rev k now s c :
  conn s = Some c →
  step U K rev (speech_started k now) s
  = (s, [TwilioSend (ClearOut (streamSid c))]).
Proof. destruct s as [w ss oc]. simpl. by intros ->. Qed.

(** C6.  The handler of a caller-speech-started event changes nothing and
    has exactly one effect, a clear command carrying the connection's
    stream identifier.  In a run, that command comes after the effects of
    the earlier events and before every effect of the later ones, relayed
    caller audio included. *)
Theorem speech_started_clears_once U K rev (pre post : list Event) (s : Sys)
    (c : Conn) (k : nat) (now : Z) :
  conn (run U K rev pre s).1 = Some c →
  step U K rev (speech_started k now) (run U K rev pre s).1
  = ((run U K rev pre s).1, [TwilioSend (ClearOut (streamSid c))])
  ∧ run U K rev (pre ++ speech_started k now :: post) s
    = ((run U K rev post (run U K rev pre s).1).1,
       (run U K rev pre s).2
       ++ [TwilioSend (ClearOut (streamSid c))]
       ++ (run U K rev post (run U K rev pre s).1).2).
Proof.
  intros Hc. split; [by apply step_speech_started|].
  rewrite run_app, run_cons.
  by rewrite (step_speech_started U K rev k now _ c Hc).
Qed.

Lemma speech_started_clears_once_witness :
  let s0 := (connect RevB JNull world_two_sessions).1 in
  let pre := [TwilioMessage (Some (start_frame (Some (JString "s1")))) 3000;
              OpenAIOpened 0] in
  let post := [media_frame (JString "frame") 3600] in
  (streamSid <$> conn (run JUndefined JUndefined RevB pre s0).1) = Some (JString "MZ1")
  ∧ (run JUndefined JUndefined RevB (pre ++ speech_started 0 3500 :: post) s0).2
    = [NewWebSocket 0; OpenAISend 0 (SessionUpdate (JString "Be concise"));
       TwilioSend (ClearOut (JString "MZ1"));
       OpenAISend 0 (InputAudioBufferAppend (JString "frame"))].
Proof.
  split; [reflexivity|].
  exact (f_equal snd (proj2 (speech_started_clears_once JUndefined JUndefined RevB
    [TwilioMessage (Some (start_frame (Some (JString "s1")))) 3000; OpenAIOpened 0]
    [media_frame (JString "frame") 3600]
    (connect RevB JNull world_two_sessions).1
    {| sessionId := JString "s1"; session := Some 0%nat;
       streamSid := JString "MZ1"; callSid := JString "CA1";
       openaiWs := Some 0%nat; openaiReady := true |}
    0%nat 3500 eq_refl))).
Defined.

(** ** C10: barge-in before the stream identifier is known *)

Lemma step_keeps_streamSid U K rev e s :
  carries_start e = false →
  streamSid <$> conn (step U K rev e s).1 = streamSid <$> conn s.
Proof.
  destruct s as [w ss oc]. intros He.
  destruct e as [op|m now|now|k|k ev now|k|k]; simpl.
  - by destruct (apply_op U K op w).
  - destruct oc as [c|]; [|by destruct m as [[]|]].
    destruct m as [[|[p|]|media| |]|]; simpl in *; try done.
    by destruct (handleCallEnd U K (sessionId c) (callSid c) now w).
  - destruct oc as [c|]; [|done]. simpl.
    by destruct (twilio_on_close U K now c w ss) as [[w' ss'] effs].
  - destruct oc as [c|]; [|done]. simpl. unfold openai_on_open.
    destruct (openaiWs c) as [j|]; [|done].
    destruct (session c ≫= λ l, deref l w); [|done].
    by destruct (ws_send (<[k:=OPEN]> ss) j).
  - destruct oc as [c|]; [|done]. simpl.
    by destruct (openai_on_message ev now c w ss).
  - by destruct oc.
  - by destruct oc.
Qed.

Lemma run_keeps_streamSid U K rev es : ∀ s,
  forallb (λ e, negb (carries_start e)) es = true →
  streamSid <$> conn (run U K rev es s).1 = streamSid <$> conn s.
Proof.
  induction es as [|e es IH]; intros s Hes; [done|].
  simpl in Hes. apply andb_true_iff in Hes as [He%negb_true_iff Hes].
  rewrite run_cons. simpl. rewrite IH by done. by apply step_keeps_streamSid.
Qed.

Lemma step_audio_delta U K rev k delta now s c :
  conn s = Some c →
  step U K rev (audio_delta k delta now) s
  = (s, if truthy (streamSid c) && truthy delta
        then [TwilioSend (MediaOut (streamSid c) delta)] else []).
Proof.
  destruct s as [w ss oc]. simpl. intros ->. unfold openai_on_message. simpl.
  by destruct (truthy (streamSid c) && truthy delta).
Qed.

Lemma twilio_on_start_streamSid rev p c w ss :
  streamSid (twilio_on_start rev p c w ss).1.1 = start_streamSid p.
Proof.
  unfold twilio_on_start, connectOpenAI. destruct rev; simpl; [done|].
  destruct (session c); simpl; [done|].
  destruct (truthy (custom_sessionId p)); simpl; [|done].
  by destruct (sessions_get (custom_sessionId p) w).
Qed.

Lemma step_keeps_null_streamSid U K rev e s c :
  sets_streamSid e = false → conn s = Some c → streamSid c = JNull →
  ∃ c', conn (step U K rev e s).1 = Some c' ∧ streamSid c' = JNull.
Proof.
  intros He Hc Hn. destruct s as [w ss oc]. simpl in Hc. subst oc.
  destruct e as [op|m now|now|k|k ev now|k|k]; simpl.
  - destruct (apply_op U K op w). by exists c.
  - destruct m as [[|[p|]|media| |]|]; simpl; try by exists c.
    + pose proof (twilio_on_start_streamSid rev p c w ss) as Hs.
      destruct (twilio_on_start rev p c w ss) as [[c' ss'] effs].
      exists c'. split; [done|]. simpl in *.
      apply negb_false_iff, bool_decide_eq_true in He. congruence.
    + destruct (handleCallEnd U K (sessionId c) (callSid c) now w). by exists c.
  - destruct (twilio_on_close U K now c w ss) as [[w' ss'] effs]. by exists c.
  - unfold openai_on_open. destruct (openaiWs c) as [j|]; [|by exists c].
    destruct (session c ≫= λ l, deref l w); [|by exists c].
    destruct (ws_send (<[k:=OPEN]> ss) j); eexists; by split.
  - destruct (openai_on_message ev now c w ss). by exists c.
  - by exists (set_ready false c).
  - by exists c.
Qed.

Lemma run_keeps_null_streamSid U K rev es : ∀ s c,
  forallb (λ e, negb (sets_streamSid e)) es = true →
  conn s = Some c → streamSid c = JNull →
  ∃ c', conn (run U K rev es s).1 = Some c' ∧ streamSid c' = JNull.
Proof.
  induction es as [|e es IH]; intros s c Hes Hc Hn; [by exists c|].
  simpl in Hes. apply andb_true_iff in Hes as [He%negb_true_iff Hes].
  rewrite run_cons. simpl.
  destruct (step_keeps_null_streamSid U K rev e s c He Hc Hn) as (c1 & Hc1 & Hn1).
  by eapply IH.
Qed.

(** C10.  On a connection whose handlers are registered and on which no
    [start] frame has so far carried a stream identifier other than null
    (frames without one included, so that a session may have been resolved
    and an AI socket opened), whatever else has been delivered: a
    caller-speech-started event makes the handler send one clear command
    whose stream identifier is null, and an audio-output-delta event sends
    nothing, whatever the delta.  More generally the delta is suppressed
    whenever the stream identifier is not truthy. *)
Theorem clear_before_start_carries_null U K rev url w (es : list Event)
    (k : nat) (now : Z) (delta : jsval) :
  forallb (λ e, negb (sets_streamSid e)) es = true →
  is_Some (conn (connect rev url w).1) →
  (step U K rev (speech_started k now) (run U K rev es (connect rev url w).1).1
   = ((run U K rev es (connect rev url w).1).1, [TwilioSend (ClearOut JNull)]))
  ∧ (step U K rev (audio_delta k delta now) (run U K rev es (connect rev url w).1).1
     = ((run U K rev es (connect rev url w).1).1, []))
  ∧ (∀ s c, conn s = Some c → truthy (streamSid c) = false →
       step U K rev (audio_delta k delta now) s = (s, [])).
Proof.
  intros Hes [c0 Hc0].
  assert (streamSid c0 = JNull) as Hnull.
  { unfold connect, on_connection in Hc0. destruct rev; simpl in Hc0.
    - destruct (_ || _); simpl in Hc0; [done|]. by injection Hc0 as <-.
    - by injection Hc0 as <-. }
  destruct (run_keeps_null_streamSid U K rev es _ c0 Hes Hc0 Hnull)
    as (c & Hc & Hk).
  split; [|split].
  - rewrite (step_speech_started U K rev k now _ c Hc). by rewrite Hk.
  - rewrite (step_audio_delta U K rev k delta now _ c Hc). by rewrite Hk.
  - intros s c' Hc' Ht. rewrite (step_audio_delta U K rev k delta now _ c' Hc').
    by rewrite Ht.
Qed.

Lemma clear_before_start_carries_null_witness :
  let es := [TwilioMessage
               (Some (Start (Some (mkStart JNull (JString "CA1")
                                           (Some (JString "s1")))))) 3000;
             OpenAIOpened 0] in
  let s := (run JUndefined JUndefined RevB es
                (connect RevB JNull world_two_sessions).1).1 in
  forallb (λ e, negb (sets_streamSid e)) es = true
  ∧ is_Some (conn (connect RevB JNull world_two_sessions).1)
  ∧ socks s = [OPEN]
  ∧ enabled (speech_started 0 3100) s = true
  ∧ enabled (audio_delta 0 (JString "pcm") 3200) s = true
  ∧ (step JUndefined JUndefined RevB (speech_started 0 3100) s).2
    = [TwilioSend (ClearOut JNull)]
  ∧ (step JUndefined JUndefined RevB (audio_delta 0 (JString "pcm") 3200) s).2 = [].
Proof.
  split; [reflexivity|]. split; [by eexists|]. split; [reflexivity|].
  split; [reflexivity|]. split; [reflexivity|].
  pose proof (clear_before_start_carries_null
    JUndefined JUndefined RevB JNull world_two_sessions
    [TwilioMessage
       (Some (Start (Some (mkStart JNull (JString "CA1")
                                   (Some (JString "s1")))))) 3000;
     OpenAIOpened 0]
    0%nat 3100 (JString "pcm") eq_refl (ex_intro _ _ eq_refl)) as (H1 & _).
  pose proof (clear_before_start_carries_null
    JUndefined JUndefined RevB JNull world_two_sessions
    [TwilioMessage
       (Some (Start (Some (mkStart JNull (JString "CA1")
                                   (Some (JString "s1")))))) 3000;
     OpenAIOpened 0]
    0%nat 3200 (JString "pcm") eq_refl (ex_intro _ _ eq_refl)) as (_ & H2 & _).
  exact (conj (f_equal snd H1) (f_equal snd H2)).
Defined.

(** ** C7: the results report *)

Lemma delete_last {A} (l : list A) (x : A) : delete (length l) (l ++ [x]) = l.
Proof. induction l as [|a l IH]; simpl; [done|]. by rewrite IH. Qed.

(** C7.  At the invocation of [handleCallEnd] that finds a live session, a
    report is issued exactly when both endpoint settings are truthy and the
    session's [callId] is truthy; there is then a single report, carrying
    the session's [callId], the [callSid] passed in, the rendered transcript,
    the rounded duration, the end reason ["call_ended"] and the fixed type
    tag.  However the request ends, the suspended invocation resumes with
    one log line and the scheduling of the deletion timer, and nothing is
    fetched again.  Every failure is logged as an error: a non-success
    response by its status (in revision B once its body has been read), a
    rejected request and, in revision B, a body that cannot be read by the
    line of the [catch]. *)
Theorem report_iff_configured U K sid cs now w id l s :
  pending_session sid w = Some (id, l, s) →
  ((∃ rep, In (Fetch rep) (handleCallEnd U K sid cs now w).2)
   ↔ configured U K = true ∧ truthy (callId s) = true)
  ∧ (∀ rep, In (Fetch rep) (handleCallEnd U K sid cs now w).2 →
       rep = {| r_type := "openai-realtime-end";
                r_callId := callId s;
                r_callSid := cs;
                r_transcript := render (transcript s);
                r_duration := Math_round_div1000 (now - createdAt s);
                r_endedReason := "call_ended" |})
  ∧ (length (filter (λ e, is_Fetch e = true) (handleCallEnd U K sid cs now w).2) ≤ 1)%nat
  ∧ (configured U K = true → truthy (callId s) = true →
       ∀ o, handleCallEnd_resume (length (awaiting w)) o (handleCallEnd U K sid cs now w).1
            = ({| heap := heap (handleCallEnd U K sid cs now w).1;
                  sessions := sessions (handleCallEnd U K sid cs now w).1;
                  awaiting := awaiting w;
                  timers := timers w ++ [id] |},
               [settle_log o; SetTimeout id GRACE_MS]))
  ∧ (∀ status, settle_log (RespNotOk status) = ConsoleError (ErrFailedStatus status))
  ∧ settle_log Rejected = ConsoleError ErrFailedToPost
  ∧ (∀ status, settle_log (RespNotOkTextFailed status) = ConsoleError ErrFailedToPost)
  ∧ (∀ o, is_Fetch (settle_log o) = false).
Proof.
  intros Hp. rewrite (handleCallEnd_first U K sid cs now w id l s Hp).
  assert ((∀ status, settle_log (RespNotOk status) = ConsoleError (ErrFailedStatus status))
          ∧ settle_log Rejected = ConsoleError ErrFailedToPost
          ∧ (∀ status, settle_log (RespNotOkTextFailed status) = ConsoleError ErrFailedToPost)
          ∧ (∀ o, is_Fetch (settle_log o) = false)) as Htail.
  { split; [done|]. split; [done|]. split; [done|]. by intros []. }
  unfold configured.
  destruct (truthy U && truthy K) eqn:Hcfg; simpl;
    [destruct (truthy (callId s)) eqn:Hid; simpl|].
  - split; [|split; [|split; [|split; [|exact Htail]]]].
    + split; [done|]. intros _. eexists. right. by left.
    + intros rep [Hin|[Hin|[]]]; [done|]. by injection Hin as <-.
    + done.
    + intros _ _ o. unfold handleCallEnd_resume. simpl.
      rewrite list_lookup_middle by done. by rewrite delete_last.
  - split; [|split; [|split; [|split; [|exact Htail]]]].
    + split; [|by intros [_ ?]]. by intros [rep [|[|[]]]].
    + by intros rep [|[|[]]].
    + simpl. lia.
    + done.
  - split; [|split; [|split; [|split; [|exact Htail]]]].
    + split; [|by intros [? _]]. by intros [rep [|[|[]]]].
    + by intros rep [|[|[]]].
    + simpl. lia.
    + done.
Qed.

Lemma report_iff_configured_witness :
  let U := JString "https://collector.example" in
  let K := JString "anon" in
  let r := handleCallEnd U K (JString "s1") (JString "CA1") 64500 world_two_sessions in
  pending_session (JString "s1") world_two_sessions
  = Some ("s1", 0%nat,
          {| prompt := JString "Be concise"; callId := JString "c-1";
             contactName := JString ""; voiceId := JString "alloy";
             language := JString "he"; transcript := []; createdAt := 1000;
             _ended := false |})
  ∧ configured U K = true
  ∧ (∃ rep, In (Fetch rep) r.2)
  ∧ (handleCallEnd_resume 0 (RespNotOkTextFailed 500) r.1).2
    = [ConsoleError ErrFailedToPost; SetTimeout "s1" 300000]
  ∧ (handleCallEnd_resume 0 (RespNotOk 500) r.1).2
    = [ConsoleError (ErrFailedStatus 500); SetTimeout "s1" 300000].
Proof.
  split; [reflexivity|]. split; [reflexivity|].
  pose proof (report_iff_configured
    (JString "https://collector.example") (JString "anon")
    (JString "s1") (JString "CA1") 64500 world_two_sessions "s1" 0%nat _ eq_refl)
    as (H1 & _ & _ & H4 & _).
  split; [apply H1; by split|].
  split.
  - exact (f_equal snd (H4 eq_refl eq_refl (RespNotOkTextFailed 500))).
  - exact (f_equal snd (H4 eq_refl eq_refl (RespNotOk 500))).
Defined.

(** ** C8: when sessions leave the registry *)

Lemma sweep_lookup now w id :
  sessions (sweep now w) !! id =
    match sessions w !! id with
    | Some l => if expired now w l then None else Some l
    | None => None
    end.
Proof.
  unfold sweep; simpl.
  destruct (sessions w !! id) as [l|] eqn:Hl.
  - destruct (expired now w l) eqn:He.
    + apply map_lookup_filter_None. right. intros l' Hl'. simpl.
      assert (l' = l) as -> by congruence. by rewrite He.
    + apply map_lookup_filter_Some. by split.
  - apply map_lookup_filter_None. by left.
Qed.

(** C8.  The first finalisation of a session schedules one deletion timer
    for its identifier with the fixed delay [GRACE_MS], at once when no
    report is due and otherwise when the report settles, whatever the
    outcome; when a timer fires its session is no longer in the registry.  A
    sweep at time [now] removes exactly the sessions created more than
    [MAX_AGE_MS] before [now], whatever their [_ended] flag and whether or
    not a connection ever reached them, and keeps the others.  Removing a
    session that is already gone changes nothing, so whichever of the two
    comes first removes it. *)
Theorem session_removed_by_timer_or_sweep U K (w : World) :
  (∀ sid cs now id l s,
     pending_session sid w = Some (id, l, s) →
     (configured U K && truthy (callId s) = false →
        timers (handleCallEnd U K sid cs now w).1 = timers w ++ [id]
        ∧ In (SetTimeout id GRACE_MS) (handleCallEnd U K sid cs now w).2)
     ∧ (configured U K && truthy (callId s) = true →
        ∀ o, timers (handleCallEnd_resume (length (awaiting w)) o
                       (handleCallEnd U K sid cs now w).1).1 = timers w ++ [id]
             ∧ In (SetTimeout id GRACE_MS)
                  (handleCallEnd_resume (length (awaiting w)) o
                     (handleCallEnd U K sid cs now w).1).2))
  ∧ (∀ i id, timers w !! i = Some id →
       sessions (timer_fired i w) !! id = None
       ∧ (sessions w !! id = None → sessions (timer_fired i w) = sessions w))
  ∧ (∀ now id l s,
       sessions w !! id = Some l → deref l w = Some s →
       sessions (sweep now w) !! id
       = if bool_decide (now - createdAt s > MAX_AGE_MS) then None else Some l)
  ∧ (∀ now id, sessions w !! id = None → sessions (sweep now w) !! id = None)
  ∧ GRACE_MS = 300000 ∧ MAX_AGE_MS = 7200000 ∧ SWEEP_EVERY_MS = 1800000.
Proof.
  split; [|split; [|split; [|split; [|done]]]].
  - intros sid cs now id l s Hp.
    rewrite (handleCallEnd_first U K sid cs now w id l s Hp).
    unfold configured.
    destruct (truthy U && truthy K && truthy (callId s)); simpl.
    + split; [done|]. intros _ o. unfold handleCallEnd_resume; simpl.
      rewrite list_lookup_middle by done. simpl. split; [done|]. right. by left.
    + split; [|done]. intros _. split; [done|]. right. by left.
  - intros i id Hi. unfold timer_fired. rewrite Hi. simpl. split.
    + apply lookup_delete_eq.
    + intros Hn. by apply delete_id.
  - intros now id l s Hl Hs. rewrite sweep_lookup, Hl. unfold expired. by rewrite Hs.
  - intros now id Hn. by rewrite sweep_lookup, Hn.
Qed.

Lemma session_removed_by_timer_or_sweep_witness :
  sessions world_one_session !! "s1" = Some 0%nat
  ∧ sessions (sweep 7201001 world_one_session) !! "s1" = None
  ∧ sessions (sweep 7201000 world_one_session) !! "s1" = Some 0%nat.
Proof.
  split; [reflexivity|].
  pose proof (session_removed_by_timer_or_sweep JUndefined JUndefined
                world_one_session) as (_ & _ & H & _).
  split.
  - exact (H 7201001 "s1" 0%nat _ eq_refl eq_refl).
  - exact (H 7201000 "s1" 0%nat _ eq_refl eq_refl).
Defined.

(** ** C9: duration and transcript *)

Lemma string_app_nil_r (s : string) : (s ++ "")%string = s.
Proof.
  induction s as [|a s IH]; [reflexivity|].
  change (String a (s ++ "")%string = String a s). by f_equal.
Qed.

Lemma string_app_assoc (s1 s2 s3 : string) :
  ((s1 ++ s2) ++ s3)%string = (s1 ++ (s2 ++ s3))%string.
Proof.
  induction s1 as [|a s1 IH]; [reflexivity|].
  change (String a ((s1 ++ s2) ++ s3)%string = String a (s1 ++ (s2 ++ s3))%string).
  by f_equal.
Qed.

Lemma line_labelled t :
  line t = (speaker_label (role t) ++ ": " ++ text t)%string.
Proof. unfold line. by destruct (role t). Qed.

Lemma render_labelled_lines ts : render ts = labelled_lines ts.
Proof.
  unfold render. induction ts as [|t ts IH]; [done|].
  destruct ts as [|t' ts].
  - simpl. by rewrite line_labelled, !string_app_nil_r.
  - change (String.concat newline (map line (t :: t' :: ts)))
      with (line t ++ newline ++ String.concat newline (map line (t' :: ts)))%string.
    rewrite IH, line_labelled.
    change (labelled_lines (t :: t' :: ts))
      with (speaker_label (role t) ++ ": " ++ text t
            ++ newline ++ labelled_lines (t' :: ts))%string.
    by rewrite !string_app_assoc.
Qed.

Lemma Math_round_div1000_nearest ms :
  1000 * Math_round_div1000 ms - 500 ≤ ms < 1000 * Math_round_div1000 ms + 500.
Proof.
  unfold Math_round_div1000.
  pose proof (Z.div_mod (ms + 500) 1000 ltac:(lia)).
  pose proof (Z.mod_pos_bound (ms + 500) 1000 ltac:(lia)). lia.
Qed.

Lemma transcript_push_appends l e w s :
  deref l w = Some s →
  deref l (transcript_push l e w) = Some (push_transcript e s)
  ∧ transcript (push_transcript e s) = transcript s ++ [e]
  ∧ createdAt (push_transcript e s) = createdAt s.
Proof.
  intros Hs. unfold transcript_push. rewrite Hs.
  by rewrite (deref_store_eq _ _ _ s).
Qed.

(** C9, counterexample.  The duration is computed from two readings of
    the clock and nothing keeps it from being negative: for the session
    created at time 2000 and finalised when the clock reads 1499, the report
    carries the duration -1. *)
Lemma duration_never_negative_fails : ¬ duration_never_negative.
Proof.
  intros H.
  pose proof (H (JString "https://collector.example") (JString "anon")
                (JString "s2") (JString "CA1") 1499 world_two_sessions
                {| r_type := "openai-realtime-end"; r_callId := JString "c-1";
                   r_callSid := JString "CA1"; r_transcript := "";
                   r_duration := -1; r_endedReason := "call_ended" |}) as Hneg.
  simpl in Hneg. assert (0 ≤ -1)%Z as Habs; [|lia].
  apply Hneg. vm_compute. right. by left.
Qed.

(** The same finalisation, evaluated. *)
Example duration_at_2000_1499 :
  (handleCallEnd (JString "https://collector.example") (JString "anon")
                 (JString "s2") (JString "CA1") 1499 world_two_sessions).2
  = [ConsoleLog (LogCallEnded (-1));
     Fetch {| r_type := "openai-realtime-end"; r_callId := JString "c-1";
              r_callSid := JString "CA1"; r_transcript := "";
              r_duration := -1; r_endedReason := "call_ended" |}].
Proof. vm_compute. done. Qed.

(** C9, amended.  At the invocation of [handleCallEnd] that finds a live
    session, the handler logs the duration and then either sends the report
    or, when no report is due, schedules the deletion.  The duration, logged
    and reported, is the number of milliseconds between the session's
    creation and the invocation, as read from the clock, divided by 1000 and
    rounded to the nearest whole number (halves upwards); it is not negative
    exactly when the clock at the invocation is at most 500 ms behind the
    creation time, hence whenever the clock has not gone back.  The reported
    transcript is the block of labelled lines of the session's entries: the
    label of the role (one for the caller, one for the assistant), a colon
    and the text, joined by newlines in the order of the list, to which every
    transcript event appends its entry at the end. *)
Theorem duration_and_transcript U K sid cs now w id l s :
  pending_session sid w = Some (id, l, s) →
  (handleCallEnd U K sid cs now w).2
    = ConsoleLog (LogCallEnded (Math_round_div1000 (now - createdAt s)))
      :: (if configured U K && truthy (callId s)
          then [Fetch {| r_type := "openai-realtime-end";
                         r_callId := callId s;
                         r_callSid := cs;
                         r_transcript := labelled_lines (transcript s);
                         r_duration := Math_round_div1000 (now - createdAt s);
                         r_endedReason := "call_ended" |}]
          else [SetTimeout id GRACE_MS])
  ∧ (1000 * Math_round_div1000 (now - createdAt s) - 500
       ≤ now - createdAt s
       < 1000 * Math_round_div1000 (now - createdAt s) + 500)
  ∧ ((0 ≤ Math_round_div1000 (now - createdAt s))%Z ↔ (createdAt s - 500 ≤ now)%Z)
  ∧ (∀ e, deref l (transcript_push l e w) = Some (push_transcript e s)
          ∧ transcript (push_transcript e s) = transcript s ++ [e])
  ∧ speaker_label User = "לקוח" ∧ speaker_label Agent = "סוכן".
Proof.
  intros Hp. rewrite (handleCallEnd_first U K sid cs now w id l s Hp).
  apply pending_session_Some in Hp as (_ & _ & Hs & _).
  split.
  { unfold configured, make_report. rewrite render_labelled_lines.
    by destruct (truthy U && truthy K && truthy (callId s)). }
  split; [apply Math_round_div1000_nearest|].
  split; [|split; [|done]].
  - pose proof (Math_round_div1000_nearest (now - createdAt s)). lia.
  - intros e. by destruct (transcript_push_appends l e w s Hs) as (? & ? & _).
Qed.

Lemma duration_and_transcript_witness :
  let U := JString "https://collector.example" in
  let K := JString "anon" in
  let s := {| prompt := JString "Be concise"; callId := JString "c-1";
              contactName := JString ""; voiceId := JString "alloy";
              language := JString "he";
              transcript := [mkEntry Agent "shalom" 3300; mkEntry User "hi" 3400];
              createdAt := 1000; _ended := false |} in
  pending_session (JString "s1") world_with_transcript = Some ("s1", 0%nat, s)
  ∧ (handleCallEnd U K (JString "s1") (JString "CA1") 64500 world_with_transcript).2
    = [ConsoleLog (LogCallEnded 64);
       Fetch {| r_type := "openai-realtime-end"; r_callId := JString "c-1";
                r_callSid := JString "CA1";
                r_transcript := ("סוכן: shalom" ++ newline ++ "לקוח: hi")%string;
                r_duration := 64; r_endedReason := "call_ended" |}].
Proof.
  split; [reflexivity|].
  exact (proj1 (duration_and_transcript
    (JString "https://collector.example") (JString "anon")
    (JString "s1") (JString "CA1") 64500 world_with_transcript "s1" 0%nat _ eq_refl)).
Defined.

(** ** The scenarios of the specification, evaluated *)

(** Once the socket has opened, a media frame is forwarded; before, it is
    dropped and the later frame does not bring it back. *)
Example media_dropped_then_forwarded :
  (run JUndefined JUndefined RevB
       [TwilioMessage (Some (start_frame (Some (JString "s1")))) 3000;
        media_frame (JString "early") 3050;
        OpenAIOpened 0;
        media_frame (JString "late") 3100]
       (connect RevB JNull world_two_sessions).1).2
  = [NewWebSocket 0;
     OpenAISend 0 (SessionUpdate (JString "Be concise"));
     OpenAISend 0 (InputAudioBufferAppend (JString "late"))].
Proof. vm_compute. done. Qed.

(** A finalised session is gone from the registry once its report has
    settled and its grace timer has fired; a later lookup finds nothing. *)
Example grace_timer_removes_session :
  let U := JString "https://collector.example" in
  let K := JString "anon" in
  let r := run_ops U K [CallEnd (JString "s1") (JString "CA1") 64500;
                        FetchSettled 0 (RespNotOk 500);
                        TimerFired 0] world_two_sessions in
  sessions_get (JString "s1") r.1 = None
  ∧ sessions_get (JString "s2") r.1 = Some 1%nat
  ∧ filter (λ e, is_Fetch e = false) r.2
    = [ConsoleLog (LogCallEnded 64); ConsoleError (ErrFailedStatus 500);
       SetTimeout "s1" 300000].
Proof. vm_compute. done. Qed.

(** A transcript of two turns, as reported. *)
Example transcript_of_two_turns :
  render [mkEntry Agent "shalom" 3300; mkEntry User "hi" 3400]
  = ("סוכן: shalom" ++ newline ++ "לקוח: hi")%string.
Proof. reflexivity. Qed.

(** * Further properties of the code *)

(** ** POST /session *)

(** X1.  A session just created is found under its identifier, is live, has an
    empty transcript and the creation time, and has every default filled in;
    the entries of other identifiers and all existing objects are left
    alone. *)
Theorem post_session_lookup (uuid : string) (b : SessionBody) (now : Z) (w : World) :
  ∃ s,
    pending_session (JString uuid) (post_session uuid b now w).1
      = Some (uuid, length (heap w), s)
    ∧ transcript s = [] ∧ createdAt s = now ∧ _ended s = false
    ∧ prompt s = js_or (body_prompt b) (JString "You are a helpful assistant.")
    ∧ truthy (prompt s) = true ∧ truthy (voiceId s) = true
    ∧ truthy (language s) = true
    ∧ (callId s = JNull ∨ (callId s = body_callId b ∧ truthy (callId s) = true))
    ∧ (∀ id, id ≠ uuid →
         sessions (post_session uuid b now w).1 !! id = sessions w !! id)
    ∧ (∀ l s0, deref l w = Some s0 →
         deref l (post_session uuid b now w).1 = Some s0).
Proof.
  eexists. split.
  { unfold pending_session, post_session, deref. simpl.
    rewrite lookup_insert_eq. simpl.
    rewrite list_lookup_middle by done. simpl. reflexivity. }
  simpl. unfold js_or.
  repeat split; try done.
  - by destruct (truthy (body_prompt b)) eqn:E.
  - by destruct (truthy (body_voiceId b)) eqn:E.
  - by destruct (truthy (body_language b)) eqn:E.
  - destruct (truthy (body_callId b)) eqn:E; [by right|by left].
  - intros id Hne. by rewrite lookup_insert_ne.
  - intros l s0 Hs. unfold deref in *. simpl.
    rewrite lookup_app_l; [done|]. eapply lookup_lt_Some; eauto.
Qed.

(** ** What the registry operations keep *)

Lemma apply_op_attributes U K op w l s :
  deref l w = Some s →
  ∃ s', deref l (apply_op U K op w).1 = Some s'
        ∧ prompt s' = prompt s ∧ callId s' = callId s
        ∧ contactName s' = contactName s ∧ voiceId s' = voiceId s
        ∧ language s' = language s ∧ createdAt s' = createdAt s
        ∧ transcript s `prefix_of` transcript s'
        ∧ (_ended s = true → _ended s' = true).
Proof.
  intros Hs. destruct op as [uuid b now|sid cs now|i o|i|now|l0 e]; simpl.
  - exists s. split; [|done]. unfold deref in *; simpl.
    rewrite lookup_app_l; [done|]. eapply lookup_lt_Some; eauto.
  - destruct (pending_session sid w) as [[[id l0] s0]|] eqn:Hp.
    + rewrite (handleCallEnd_first _ _ _ _ _ _ _ _ _ Hp).
      apply pending_session_Some in Hp as (_ & _ & Hs0 & He0).
      destruct (decide (l0 = l)) as [->|Hne].
      * assert (s0 = s) as -> by (unfold deref in *; congruence).
        exists (set_ended s). unfold deref in *.
        assert (l < length (heap w))%nat by (eapply lookup_lt_Some; eauto).
        destruct (_ && _); simpl; by rewrite list_lookup_insert_eq.
      * exists s. unfold deref in *.
        destruct (_ && _); simpl; by rewrite list_lookup_insert_ne.
    + rewrite handleCallEnd_idle by done. exists s. done.
  - unfold handleCallEnd_resume. destruct (awaiting w !! i); simpl; by exists s.
  - unfold timer_fired. destruct (timers w !! i); simpl; by exists s.
  - by exists s.
  - unfold transcript_push. destruct (deref l0 w) as [s0|] eqn:Hs0; [|by exists s].
    destruct (decide (l0 = l)) as [->|Hne].
    + assert (s0 = s) as -> by congruence.
      exists (push_transcript e s). rewrite (deref_store_eq _ _ _ s) by done.
      simpl. repeat split; try done. by apply prefix_app_r.
    + exists s. by rewrite deref_store_ne.
Qed.

(** X2.  Whatever operations reach the registry, a session object keeps the
    attributes it was created with, its creation time included; its
    transcript only grows at the end, so entries are never reordered or
    rewritten; and once ended it stays ended. *)
Theorem session_attributes_stable U K (ops : list Op) : ∀ (w : World) (l : nat) (s : Session),
  deref l w = Some s →
  ∃ s', deref l (run_ops U K ops w).1 = Some s'
        ∧ prompt s' = prompt s ∧ callId s' = callId s
        ∧ contactName s' = contactName s ∧ voiceId s' = voiceId s
        ∧ language s' = language s ∧ createdAt s' = createdAt s
        ∧ transcript s `prefix_of` transcript s'
        ∧ (_ended s = true → _ended s' = true).
Proof.
  induction ops as [|op ops IH]; intros w l s Hs.
  - exists s. simpl. done.
  - destruct (apply_op_attributes U K op w l s Hs)
      as (s1 & Hs1 & Hp & Hc & Hn & Hv & Hl & Ht & Hpre & He).
    destruct (IH _ l s1 Hs1) as (s2 & Hs2 & Hp2 & Hc2 & Hn2 & Hv2 & Hl2 & Ht2 & Hpre2 & He2).
    exists s2. simpl. destruct (apply_op U K op w) as [w1 o1]. simpl in *.
    destruct (run_ops U K ops w1) as [w2 o2]. simpl in *.
    split; [done|]. repeat split; try congruence.
    + by etrans.
    + auto.
Qed.

Lemma session_attributes_stable_witness :
  let U := JString "https://collector.example" in
  let K := JString "anon" in
  let ops := [TranscriptPush 0 (mkEntry Agent "shalom" 3300);
              CallEnd (JString "s1") (JString "CA1") 64500;
              TranscriptPush 0 (mkEntry User "hi" 64600);
              Sweep 9000000] in
  is_Some (deref 0 world_two_sessions)
  ∧ ∃ s', deref 0 (run_ops U K ops world_two_sessions).1 = Some s'
          ∧ createdAt s' = 1000
          ∧ [] `prefix_of` transcript s'.
Proof.
  split; [by eexists|].
  destruct (session_attributes_stable
    (JString "https://collector.example") (JString "anon")
    [TranscriptPush 0 (mkEntry Agent "shalom" 3300);
     CallEnd (JString "s1") (JString "CA1") 64500;
     TranscriptPush 0 (mkEntry User "hi" 64600);
     Sweep 9000000] world_two_sessions 0%nat _ eq_refl)
    as (s' & H1 & _ & _ & _ & _ & _ & H2 & H3 & _).
  exists s'. split; [exact H1|]. split; [exact H2|exact H3].
Defined.

(** ** The sweep *)

Lemma World_eq (w1 w2 : World) :
  heap w1 = heap w2 → sessions w1 = sessions w2 →
  awaiting w1 = awaiting w2 → timers w1 = timers w2 → w1 = w2.
Proof. destruct w1, w2; simpl; by intros -> -> -> ->. Qed.

Lemma expired_mono now1 now2 w l :
  (now1 ≤ now2)%Z → expired now1 w l = true → expired now2 w l = true.
Proof.
  unfold expired. destruct (deref l w) as [s|]; [|done].
  intros Hle H%bool_decide_eq_true. apply bool_decide_eq_true. lia.
Qed.

(** X3.  Sweeping twice is sweeping once at the later time; in particular a
    sweep repeated at the same time removes nothing more.  A sweep only
    removes entries, and touches neither the session objects nor the pending
    timers. *)
Theorem sweep_compose (now1 now2 : Z) (w : World) :
  (now1 ≤ now2)%Z →
  sweep now2 (sweep now1 w) = sweep now2 w
  ∧ sessions (sweep now1 w) ⊆ sessions w
  ∧ heap (sweep now1 w) = heap w
  ∧ timers (sweep now1 w) = timers w.
Proof.
  intros Hle. split; [|split; [|done]].
  - apply World_eq; try done. apply map_eq. intros id.
    rewrite !sweep_lookup.
    destruct (sessions w !! id) as [l|] eqn:Hl; [|done].
    change (expired now2 (sweep now1 w) l) with (expired now2 w l).
    destruct (expired now1 w l) eqn:H1; [|done].
    by rewrite (expired_mono now1 now2 w l Hle H1).
  - unfold sweep; simpl. apply map_filter_subseteq.
Qed.

Lemma sweep_compose_witness :
  (7201001 ≤ 7202001)%Z
  ∧ sweep 7202001 (sweep 7201001 world_two_sessions)
    = sweep 7202001 world_two_sessions.
Proof.
  split; [lia|].
  apply (sweep_compose 7201001 7202001 world_two_sessions). lia.
Defined.

(** ** What can take an entry out of the registry *)

(** X4.  One operation leaves the entry of an identifier as it is unless it is
    the firing of a timer scheduled for that identifier, a sweep for which
    the session has expired, or a creation that returns the same identifier
    again.  Finalisation itself, settled reports and transcript writes never
    remove or redirect an entry. *)
Theorem entry_survives U K (op : Op) (w : World) (id : string) (l : nat) :
  sessions w !! id = Some l →
  sessions (apply_op U K op w).1 !! id = Some l
  ∨ (∃ i, op = TimerFired i ∧ timers w !! i = Some id)
  ∨ (∃ now, op = Sweep now ∧ expired now w l = true)
  ∨ (∃ b now, op = PostSession id b now).
Proof.
  intros Hl. destruct op as [uuid b now|sid cs now|i o|i|now|l0 e]; simpl.
  - destruct (decide (uuid = id)) as [->|Hne].
    + right. right. right. eauto.
    + left. by rewrite lookup_insert_ne.
  - left. destruct (pending_session sid w) as [[[id0 l0] s0]|] eqn:Hp.
    + rewrite (handleCallEnd_first _ _ _ _ _ _ _ _ _ Hp). by destruct (_ && _).
    + by rewrite handleCallEnd_idle.
  - left. unfold handleCallEnd_resume. by destruct (awaiting w !! i).
  - unfold timer_fired. destruct (timers w !! i) as [sid|] eqn:Hi; [|by left].
    destruct (decide (sid = id)) as [->|Hne].
    + right. left. eauto.
    + left. simpl. by rewrite lookup_delete_ne.
  - destruct (expired now w l) eqn:He.
    + right. right. left. eauto.
    + left. change (sessions (sweep now w) !! id = Some l).
      by rewrite sweep_lookup, Hl, He.
  - left. unfold transcript_push. by destruct (deref l0 w).
Qed.

Lemma entry_survives_witness :
  sessions world_two_sessions !! "s2" = Some 1%nat
  ∧ sessions (apply_op JUndefined JUndefined
                (CallEnd (JString "s2") (JString "CA1") 64500)
                world_two_sessions).1 !! "s2" = Some 1%nat.
Proof.
  split; [reflexivity|].
  destruct (entry_survives JUndefined JUndefined
              (CallEnd (JString "s2") (JString "CA1") 64500)
              world_two_sessions "s2" 1%nat eq_refl)
    as [H|[(i & H & _)|[(now & H & _)|(b & now & H)]]];
    [exact H|discriminate H..].
Defined.

(** ** Grace timers only remove finalised sessions *)

Lemma apply_op_timers_ended U K op w :
  match op with PostSession uuid _ _ => fresh_uuid uuid w | _ => True end →
  timers_ended w → timers_ended (apply_op U K op w).1.
Proof.
  intros Hfresh Hinv id l Hin Hl.
  destruct op as [uuid b now|sid cs now|i o|i|now|l0 e].
  - destruct Hfresh as (Hnone & Hnt & Hna). simpl in Hin, Hl.
    assert (id ≠ uuid) as Hne.
    { intros ->. apply elem_of_app in Hin as [?|?]; done. }
    rewrite lookup_insert_ne in Hl by done.
    apply (apply_op_ended_mono U K (PostSession uuid b now)). eauto.
  - simpl in *. destruct (pending_session sid w) as [[[id0 l0] s0]|] eqn:Hp.
    + pose proof (handleCallEnd_first_ended U K sid cs now w _ _ _ Hp) as Hend.
      pose proof (apply_op_ended_mono U K (CallEnd sid cs now) w l) as Hmono.
      simpl in Hmono.
      rewrite (handleCallEnd_first _ _ _ _ _ _ _ _ _ Hp) in *.
      apply pending_session_Some in Hp as (_ & Hl0 & _).
      assert (id ∈ (timers w ++ awaiting w) ∨ id = id0) as [Hold| ->].
      { destruct (_ && _); simpl in Hin.
        - apply elem_of_app in Hin as [Hin|Hin]; [left; apply elem_of_app; by left|].
          apply elem_of_app in Hin as [Hin|Hin]; [left; apply elem_of_app; by right|].
          apply list_elem_of_singleton in Hin. by right.
        - apply elem_of_app in Hin as [Hin|Hin]; [|left; apply elem_of_app; by right].
          apply elem_of_app in Hin as [Hin|Hin]; [left; apply elem_of_app; by left|].
          apply list_elem_of_singleton in Hin. by right. }
      * apply Hmono. apply (Hinv id); [done|]. by destruct (_ && _).
      * assert (l = l0) as -> by (destruct (_ && _); simpl in Hl; congruence).
        done.
    + rewrite handleCallEnd_idle in * by done. eauto.
  - simpl in *. unfold handleCallEnd_resume in *.
    destruct (awaiting w !! i) as [sid|] eqn:Hi; simpl in *; [|eauto].
    apply (Hinv id); [|done].
    assert (sid ∈ awaiting w) as Hsid by (by eapply list_elem_of_lookup_2).
    apply elem_of_app in Hin as [Hin|Hin].
    + apply elem_of_app in Hin as [Hin|Hin]; apply elem_of_app; [by left|].
      apply list_elem_of_singleton in Hin as ->. by right.
    + apply elem_of_app. right. by eapply list_elem_of_delete_inv.
  - simpl in *. unfold timer_fired in *.
    destruct (timers w !! i) as [sid|] eqn:Hi; simpl in *; [|eauto].
    destruct (decide (sid = id)) as [->|Hne].
    { by rewrite lookup_delete_eq in Hl. }
    rewrite lookup_delete_ne in Hl by done.
    apply (Hinv id); [|done].
    apply elem_of_app in Hin as [Hin|Hin]; apply elem_of_app; [left|by right].
    by eapply list_elem_of_delete_inv.
  - change (sessions (sweep now w) !! id = Some l) in Hl.
    rewrite sweep_lookup in Hl. simpl in *.
    destruct (sessions w !! id) as [l'|] eqn:Hl'; [|done].
    destruct (expired now w l'); [done|]. injection Hl as <-.
    by apply (Hinv id).
  - apply (apply_op_ended_mono U K (TranscriptPush l0 e)).
    simpl in *. apply (Hinv id).
    + unfold transcript_push in Hin. by destruct (deref l0 w).
    + unfold transcript_push in Hl. by destruct (deref l0 w).
Qed.

(** X5.  As long as every created session gets an identifier that was never
    handed out before, a pending deletion timer only ever names a session
    that has been finalised: whatever the interleaving, when a timer fires
    the entry it removes, if still there, is that of an ended session. *)
Theorem grace_timer_removes_only_ended U K (ops : list Op) : ∀ (w : World),
  timers_ended w → fresh_run U K ops w →
  ∀ i id l,
    timers (run_ops U K ops w).1 !! i = Some id →
    sessions (run_ops U K ops w).1 !! id = Some l →
    ended_at l (run_ops U K ops w).1 = true.
Proof.
  induction ops as [|op ops IH]; intros w Hinv Hfresh i id l Hi Hl.
  - simpl in *. apply (Hinv id); [|done]. apply elem_of_app. left.
    by eapply list_elem_of_lookup_2.
  - destruct Hfresh as [Hf1 Hf2].
    pose proof (apply_op_timers_ended U K op w Hf1 Hinv) as Hinv1.
    specialize (IH _ Hinv1 Hf2 i id l).
    simpl in Hi, Hl |- *. destruct (apply_op U K op w) as [w1 o1]. simpl in *.
    destruct (run_ops U K ops w1) as [w2 o2]. simpl in *. auto.
Qed.

Lemma grace_timer_removes_only_ended_witness :
  let ops := [CallEnd (JString "s1") (JString "CA1") 64500;
              PostSession "s3" body_c1 70000;
              Sweep 80000] in
  timers_ended world_two_sessions
  ∧ fresh_run JUndefined JUndefined ops world_two_sessions
  ∧ timers (run_ops JUndefined JUndefined ops world_two_sessions).1 !! 0%nat = Some "s1"
  ∧ ended_at 0 (run_ops JUndefined JUndefined ops world_two_sessions).1 = true.
Proof.
  assert (timers_ended world_two_sessions) as H1.
  { intros id l Hin. simpl in Hin. by apply elem_of_nil in Hin. }
  assert (fresh_run JUndefined JUndefined
            [CallEnd (JString "s1") (JString "CA1") 64500;
             PostSession "s3" body_c1 70000;
             Sweep 80000] world_two_sessions) as H2.
  { simpl. split; [done|]. split; [|done].
    split; [reflexivity|]. split.
    - intros Hin. apply list_elem_of_In in Hin. simpl in Hin.
      destruct Hin as [Hin|[]]. discriminate Hin.
    - apply not_elem_of_nil. }
  split; [exact H1|]. split; [exact H2|]. split; [reflexivity|].
  exact (grace_timer_removes_only_ended JUndefined JUndefined _ _ H1 H2
           0%nat "s1" 0%nat eq_refl eq_refl).
Defined.

(** ** Rendering composes *)

Lemma render_cons2 t t' ts :
  render (t :: t' :: ts) = (line t ++ newline ++ render (t' :: ts))%string.
Proof. reflexivity. Qed.

(** X6.  The block of a transcript split in two non-empty parts is the block
    of the first part, a newline, and the block of the second: appending
    entries appends lines and leaves the lines already rendered as they
    were. *)
Theorem render_app (ts1 ts2 : list TranscriptEntry) :
  ts1 ≠ [] → ts2 ≠ [] →
  render (ts1 ++ ts2) = (render ts1 ++ newline ++ render ts2)%string.
Proof.
  intros H1 H2. induction ts1 as [|t ts1 IH]; [done|].
  destruct ts1 as [|t' ts1].
  - destruct ts2 as [|t2 ts2]; [done|]. simpl app. by rewrite render_cons2.
  - change ((t :: t' :: ts1) ++ ts2) with (t :: t' :: (ts1 ++ ts2)).
    rewrite !render_cons2.
    change (t' :: ts1 ++ ts2) with ((t' :: ts1) ++ ts2).
    rewrite IH by done. by rewrite !string_app_assoc.
Qed.

Lemma render_app_witness :
  [mkEntry Agent "shalom" 3300] ≠ []
  ∧ [mkEntry User "hi" 3400] ≠ []
  ∧ render ([mkEntry Agent "shalom" 3300] ++ [mkEntry User "hi" 3400])
    = (render [mkEntry Agent "shalom" 3300] ++ newline
       ++ render [mkEntry User "hi" 3400])%string.
Proof.
  split; [discriminate|]. split; [discriminate|].
  apply render_app; discriminate.
Defined.

(** ** Where every effect comes from *)

Lemma handleCallEnd_is_op U K sid cs now w :
  handleCallEnd U K sid cs now w = apply_op U K (CallEnd sid cs now) w.
Proof. reflexivity. Qed.

Lemma step_caused U K rev e s x :
  In x (step U K rev e s).2 → caused U K rev e s x.
Proof.
  destruct s as [w ss oc].
  destruct e as [op|m now|now|k|k ev now|k|k]; simpl.
  - intros Hin. apply (by_registry U K rev _ _ op); simpl; [by left|].
    by destruct (apply_op U K op w).
  - destruct oc as [c|]; [|by destruct m as [[]|]].
    destruct m as [[|[p|]|media| |]|]; simpl; try done.
    + unfold twilio_on_start, connectOpenAI. destruct rev; simpl.
      * intros [<-|[]]. by apply by_start.
      * destruct (session c) as [l|] eqn:Hs; simpl.
        { intros [<-|[]]. apply by_start. simpl.
          unfold resolves_at_start. rewrite Hs. done. }
        destruct (truthy (custom_sessionId p)) eqn:Ht; simpl.
        -- destruct (sessions_get (custom_sessionId p) w) as [l|] eqn:Hg; simpl.
           ++ intros [<-|[]]. apply by_start. simpl.
              unfold resolves_at_start. rewrite Hs, Ht, Hg. done.
           ++ intros Hin.
              assert (x = ConsoleError ErrNoValidSession ∨ x = TwilioCloseCall) as Hx
                by (destruct Hin as [<-|[<-|[]]]; auto).
              apply (by_failed_start U K _ _ _ c p now); try done.
              unfold resolves_at_start. simpl. rewrite Hs, Ht, Hg. done.
        -- intros Hin.
           assert (x = ConsoleError ErrNoValidSession ∨ x = TwilioCloseCall) as Hx
             by (destruct Hin as [<-|[<-|[]]]; auto).
           apply (by_failed_start U K _ _ _ c p now); try done.
           unfold resolves_at_start. simpl. rewrite Hs, Ht. done.
    + intros [<-|[]]. eapply by_bad_frame; eauto.
    + unfold twilio_on_media.
      destruct (openaiReady c && openai_is_open c ss) eqn:Hro; [|done].
      apply andb_true_iff in Hro as [Hr Ho]. unfold openai_is_open in Ho.
      destruct (openaiWs c) as [j|] eqn:Hj; [|done].
      apply bool_decide_eq_true in Ho.
      destruct media as [payload|].
      * intros [<-|[]]. by eapply by_media.
      * intros [<-|[]]. eapply by_bad_frame; eauto. right. right.
        split; [done|]. simpl. rewrite Hr. unfold openai_is_open. rewrite Hj.
        by apply bool_decide_eq_true_2.
    + intros Hin.
      apply (by_registry U K rev _ _ (CallEnd (sessionId c) (callSid c) now));
        simpl; [by left|].
      by destruct (handleCallEnd U K (sessionId c) (callSid c) now w).
    + intros [<-|[]]. eapply by_bad_frame; eauto.
  - destruct oc as [c|]; [|done]. simpl. unfold twilio_on_close.
    destruct (openaiWs c) as [j|] eqn:Hj.
    + destruct (openai_is_open c ss) eqn:Ho.
      * destruct (handleCallEnd U K (sessionId c) (callSid c) now w)
          as [w' e2] eqn:Hce. simpl. intros [<-|Hin].
        -- unfold openai_is_open in Ho. rewrite Hj in Ho.
           apply bool_decide_eq_true in Ho. by eapply by_close.
        -- apply (by_registry U K rev _ _ (CallEnd (sessionId c) (callSid c) now));
             simpl; [by left|]. by rewrite Hce.
      * destruct (handleCallEnd U K (sessionId c) (callSid c) now w)
          as [w' e2] eqn:Hce. simpl. intros Hin.
        apply (by_registry U K rev _ _ (CallEnd (sessionId c) (callSid c) now));
          simpl; [by left|]. by rewrite Hce.
    + destruct (handleCallEnd U K (sessionId c) (callSid c) now w)
        as [w' e2] eqn:Hce. simpl. intros Hin.
      apply (by_registry U K rev _ _ (CallEnd (sessionId c) (callSid c) now));
        simpl; [by left|]. by rewrite Hce.
  - destruct oc as [c|]; [|done]. simpl. unfold openai_on_open, ws_send.
    destruct (openaiWs c) as [j|] eqn:Hj.
    + destruct (session c ≫= λ l, deref l w) as [p|] eqn:Hp; simpl.
      * destruct (<[k:=OPEN]> ss !! j) as [[]|] eqn:Hst; simpl; try done.
        -- intros [<-|[]]. eapply by_open_throws; [done|done|].
           right. right. by exists j.
        -- intros [<-|[]]. by eapply by_open.
      * intros [<-|[]]. eapply by_open_throws; eauto.
    + simpl. intros [<-|[]]. eapply by_open_throws; eauto.
  - destruct oc as [c|]; [|done]. simpl. unfold openai_on_message.
    destruct ev as [[| delta | t | t | | |]|]; simpl.
    + unfold ws_send. destruct (openaiWs c) as [j|] eqn:Hj; simpl.
      * destruct (ss !! j) as [[]|] eqn:Hst; simpl; try done.
        -- intros [<-|[]]. eapply by_bad_event; [done|done|]. right. left.
           split; [done|]. right. by exists j.
        -- intros [<-|[]]. by eapply by_ack.
      * intros [<-|[]]. eapply by_bad_event; eauto.
    + destruct (truthy (streamSid c) && truthy delta) eqn:Ht; [|done].
      apply andb_true_iff in Ht as [H1 H2]. simpl.
      intros [<-|[]]. by eapply (by_delta U K _ _ _ c k delta now).
    + destruct (truthy_text t) as [tx|] eqn:Ht; simpl; [|done].
      destruct (session c) as [l|] eqn:Hs; simpl.
      * intros Hin.
        apply (by_registry U K rev _ _ (TranscriptPush l (mkEntry Agent tx now)));
          simpl; [|done]. rewrite Ht, Hs. simpl. by left.
      * intros [<-|[]]. eapply by_bad_event; eauto. right. right.
        split; [|done]. simpl. rewrite Ht. by eexists.
    + destruct (truthy_text t) as [tx|] eqn:Ht; simpl; [|done].
      destruct (session c) as [l|] eqn:Hs; simpl.
      * intros Hin.
        apply (by_registry U K rev _ _ (TranscriptPush l (mkEntry User tx now)));
          simpl; [|done]. rewrite Ht, Hs. simpl. by left.
      * intros [<-|[]]. eapply by_bad_event; eauto. right. right.
        split; [|done]. simpl. rewrite Ht. by eexists.
    + intros [<-|[]]. by eapply (by_speech U K _ _ _ c k now).
    + intros [<-|[]]. eapply by_error_event; eauto.
    + done.
    + intros [<-|[]]. eapply by_bad_event; eauto.
  - by destruct oc.
  - destruct oc as [c|]; [|done]. simpl.
    intros [<-|[]]. eapply by_error_event; eauto.
Qed.

(** What a registry operation can log, fetch or schedule. *)
Lemma apply_op_effects U K op w x :
  In x (apply_op U K op w).2 →
  x = ConsoleLog LogSessionCreated
  ∨ (∃ d, x = ConsoleLog (LogCallEnded d))
  ∨ (∃ sid cs now id l s,
       op = CallEnd sid cs now ∧ pending_session sid w = Some (id, l, s)
       ∧ configured U K = true ∧ truthy (callId s) = true
       ∧ x = Fetch (make_report s cs now))
  ∨ (∃ id, x = SetTimeout id GRACE_MS)
  ∨ (∃ o, x = settle_log o).
Proof.
  destruct op as [uuid b now|sid cs now|i o|i|now|l0 e]; simpl; try done.
  - intros [<-|[]]. by left.
  - destruct (pending_session sid w) as [[[id l] s]|] eqn:Hp.
    + rewrite (handleCallEnd_first _ _ _ _ _ _ _ _ _ Hp). unfold configured.
      destruct (truthy U && truthy K) eqn:Hc; simpl;
        [destruct (truthy (callId s)) eqn:Hi; simpl|].
      * intros [<-|[<-|[]]]; [right; left; eauto|].
        right. right. left. exists sid, cs, now, id, l, s. done.
      * intros [<-|[<-|[]]]; [right; left; eauto|]. right. right. right. left. eauto.
      * intros [<-|[<-|[]]]; [right; left; eauto|]. right. right. right. left. eauto.
    + by rewrite handleCallEnd_idle.
  - unfold handleCallEnd_resume. destruct (awaiting w !! i) as [id|]; [|done].
    simpl. intros [<-|[<-|[]]].
    + right. right. right. right. eauto.
    + right. right. right. left. eauto.
Qed.

(** ** The telephony connection is closed by one handler only *)

(** X7.  Once the handlers of a connection are registered, they close the
    telephony connection in exactly one situation: revision B handling a
    [start] frame that resolves no session.  No event of the AI leg, no
    error or close on it, no malformed frame, no finalisation and no
    registry operation closes the telephony side. *)
Theorem telephony_closed_only_on_failed_start U K rev (e : Event) (s : Sys) :
  In TwilioCloseCall (step U K rev e s).2
  ↔ rev = RevB
    ∧ ∃ c p now, conn s = Some c
                 ∧ e = TwilioMessage (Some (Start (Some p))) now
                 ∧ resolves_at_start p c (world s) = false.
Proof.
  split.
  - intros Hin%step_caused.
    inversion Hin as [op x Hop Hx| | c p now x Hrev Hc He Hr Hx| | | | | | | | | | ];
      subst.
    + apply apply_op_effects in Hx
        as [Hx|[[d Hx]|[(?&?&?&?&?&?&_&_&_&_&Hx)|[[id Hx]|[o Hx]]]]];
        try discriminate Hx. by destruct o.
    + split; [done|]. by exists c, p, now.
  - intros [-> (c & p & now & Hc & -> & Hr)].
    destruct s as [w ss oc]. simpl in *. subst oc. simpl.
    unfold twilio_on_start, resolves_at_start in *. simpl.
    destruct (session c) as [l|]; simpl in *; [done|].
    destruct (truthy (custom_sessionId p)); simpl in *.
    + destruct (sessions_get (custom_sessionId p) w); simpl in *; [done|].
      right. by left.
    + right. by left.
Qed.

(** ** Reports *)

(** X8.  Along every run of a connection, interleaved with anything that
    reaches the registry, a report is only ever sent when both endpoint
    settings are truthy, and every report sent carries a truthy call
    identifier, the fixed type tag and the end reason ["call_ended"]. *)
Theorem reports_only_when_configured U K rev (es : list Event) : ∀ (s : Sys),
  Forall (λ x, ∀ r, x = Fetch r →
                    configured U K = true
                    ∧ truthy (r_callId r) = true
                    ∧ r_type r = "openai-realtime-end"
                    ∧ r_endedReason r = "call_ended")
         (run U K rev es s).2.
Proof.
  induction es as [|e es IH]; intros s; [by constructor|].
  rewrite run_cons. simpl. apply Forall_app. split; [|apply IH].
  apply Forall_forall. intros x Hin%list_elem_of_In%step_caused r ->.
  inversion Hin as [op x Hop Hx| | c p now x Hrev Hc He Hr Hx| | | | | | | | | | ];
    subst.
  - apply apply_op_effects in Hx
      as [Hx|[[d Hx]|[(?&?&?&?&?&s0&_&_&Hc&Hi&Hx)|[[id Hx]|[o Hx]]]]];
      try discriminate Hx.
    + injection Hx as ->. done.
    + by destruct o.
  - by destruct Hx.
Qed.

(** ** Audio is not forwarded while the AI leg is not ready *)

Lemma step_keeps_unready U K rev e s :
  is_OpenAIOpened e = false → ready s = false →
  ready (step U K rev e s).1 = false.
Proof.
  destruct s as [w ss oc]. unfold ready. simpl. intros He Hr.
  destruct e as [op|m now|now|k|k ev now|k|k]; simpl; try done.
  - by destruct (apply_op U K op w).
  - destruct oc as [c|]; [|by destruct m as [[]|]].
    destruct m as [[|[p|]|media| |]|]; simpl; try done.
    + pose proof (twilio_on_start_ready rev p c w ss) as Hs.
      destruct (twilio_on_start rev p c w ss) as [[c' ss'] effs].
      simpl in *. congruence.
    + by destruct (handleCallEnd U K (sessionId c) (callSid c) now w).
  - destruct oc as [c|]; [|done]. simpl.
    by destruct (twilio_on_close U K now c w ss) as [[w' ss'] effs].
  - destruct oc as [c|]; [|done]. simpl.
    by destruct (openai_on_message ev now c w ss).
  - by destruct oc.
  - by destruct oc.
Qed.

(** X9.  Once the AI leg is not ready, and in particular after the close event
    of any of its sockets, no caller audio is forwarded, whatever arrives,
    until a socket's [open] event. *)
Theorem no_audio_until_open U K rev (es : list Event) : ∀ (s : Sys),
  ready s = false →
  forallb (λ e, negb (is_OpenAIOpened e)) es = true →
  Forall (λ x, is_audio_append x = false) (run U K rev es s).2
  ∧ ready (run U K rev es s).1 = false
  ∧ ∀ s0 k, ready (step U K rev (OpenAIClosed k) s0).1 = false.
Proof.
  assert (∀ s0 k, ready (step U K rev (OpenAIClosed k) s0).1 = false) as Hclosed.
  { intros [w ss [c|]] k; reflexivity. }
  induction es as [|e es IH]; intros s Hr Hes.
  - simpl. split; [by constructor|]. done.
  - simpl in Hes. apply andb_true_iff in Hes as [He%negb_true_iff Hes].
    pose proof (step_keeps_unready U K rev e s He Hr) as Hr1.
    destruct (IH _ Hr1 Hes) as (H1 & H2 & _).
    rewrite run_cons. simpl. split; [|done].
    apply Forall_app. split; [|done].
    apply Forall_forall. intros x Hin%list_elem_of_In%step_caused.
    inversion Hin as [op y Hop Hy| | c p t y Hrev Hc Hev Hres Hy| |
                      c k payload t Hc Hev Hrd| | | | | | | | ]; subst; try done.
    + apply apply_op_effects in Hy
        as [->|[[d ->]|[(?&?&?&?&?&?&_&_&_&_&->)|[[id ->]|[o ->]]]]];
        try done. by destruct o.
    + by destruct Hy as [-> | ->].
    + unfold ready in Hr. rewrite Hc in Hr. congruence.
Qed.

Lemma no_audio_until_open_witness :
  let s := (run JUndefined JUndefined RevB
              [TwilioMessage (Some (start_frame (Some (JString "s1")))) 3000;
               OpenAIOpened 0; OpenAIClosed 0]
              (connect RevB JNull world_two_sessions).1).1 in
  let es := [media_frame (JString "a") 4000;
             OpenAIMessage 0 (Some SessionCreated) 4100;
             media_frame (JString "b") 4200] in
  ready s = false
  ∧ forallb (λ e, negb (is_OpenAIOpened e)) es = true
  ∧ Forall (λ x, is_audio_append x = false) (run JUndefined JUndefined RevB es s).2.
Proof.
  split; [reflexivity|]. split; [reflexivity|].
  apply (no_audio_until_open JUndefined JUndefined RevB); reflexivity.
Defined.

(** ** A connection stays bound to its session *)

Lemma twilio_on_start_session rev p c w ss l :
  session c = Some l → session (twilio_on_start rev p c w ss).1.1 = Some l.
Proof.
  intros Hs. unfold twilio_on_start, connectOpenAI. destruct rev; simpl; [done|].
  by rewrite Hs.
Qed.

Lemma step_keeps_session U K rev e s c l :
  conn s = Some c → session c = Some l →
  ∃ c1, conn (step U K rev e s).1 = Some c1 ∧ session c1 = Some l.
Proof.
  intros Hc Hs. destruct s as [w ss oc]. simpl in Hc. subst oc.
  destruct e as [op|m now|now|k|k ev now|k|k]; simpl.
  - destruct (apply_op U K op w). by exists c.
  - destruct m as [[|[p|]|media| |]|]; simpl; try by exists c.
    + pose proof (twilio_on_start_session rev p c w ss l Hs) as H.
      destruct (twilio_on_start rev p c w ss) as [[c' ss'] effs]. by exists c'.
    + destruct (handleCallEnd U K (sessionId c) (callSid c) now w). by exists c.
  - destruct (twilio_on_close U K now c w ss) as [[w' ss'] effs]. by exists c.
  - unfold openai_on_open. destruct (openaiWs c) as [j|]; [|by exists c].
    destruct (session c ≫= λ l0, deref l0 w); [|by exists c].
    destruct (ws_send (<[k:=OPEN]> ss) j); eexists; by split.
  - destruct (openai_on_message ev now c w ss). by exists c.
  - by exists (set_ready false c).
  - by exists c.
Qed.

(** X10.  Once the closure holds a session, no event changes it: neither a later
    [start] frame with another custom parameter, nor the removal of the
    session from the registry. *)
Theorem session_binding_is_permanent U K rev (es : list Event) : ∀ (s : Sys) (c : Conn) (l : nat),
  conn s = Some c → session c = Some l →
  ∃ c', conn (run U K rev es s).1 = Some c' ∧ session c' = Some l.
Proof.
  induction es as [|e es IH]; intros s c l Hc Hs; [by exists c|].
  rewrite run_cons. simpl.
  destruct (step_keeps_session U K rev e s c l Hc Hs) as (c1 & Hc1 & Hs1).
  by eapply IH.
Qed.

Lemma session_binding_is_permanent_witness :
  let s := (connect RevB (JString "s1") world_two_sessions).1 in
  let es := [TwilioMessage (Some (start_frame (Some (JString "s2")))) 3000;
             Global (TimerFired 0); Global (Sweep 9000000);
             TwilioMessage (Some (start_frame (Some (JString "s2")))) 3100] in
  (conn s ≫= session) = Some 0%nat
  ∧ ∃ c', conn (run JUndefined JUndefined RevB es s).1 = Some c'
          ∧ session c' = Some 0%nat.
Proof.
  split; [reflexivity|].
  exact (session_binding_is_permanent JUndefined JUndefined RevB
           [TwilioMessage (Some (start_frame (Some (JString "s2")))) 3000;
            Global (TimerFired 0); Global (Sweep 9000000);
            TwilioMessage (Some (start_frame (Some (JString "s2")))) 3100]
           (connect RevB (JString "s1") world_two_sessions).1
           {| sessionId := JString "s1"; session := Some 0%nat;
              streamSid := JNull; callSid := JNull;
              openaiWs := None; openaiReady := false |}
           0%nat eq_refl eq_refl).
Defined.

(** ** Closing the telephony leg tears the AI leg down *)



(** ** Frames sent to the telephony leg carry the stream identifier *)

(** X13.  Between two [start] frames every frame the bridge sends to the
    telephony side carries the stream identifier the closure holds: a media
    frame is only sent when that identifier and the audio payload are both
    truthy, a clear command carries it whatever it is. *)
Theorem outbound_frames_carry_streamSid U K rev (es : list Event) : ∀ (s : Sys) (c : Conn),
  conn s = Some c →
  forallb (λ e, negb (carries_start e)) es = true →
  Forall (λ x, ∀ m, x = TwilioSend m →
                    (∃ payload, m = MediaOut (streamSid c) payload
                                ∧ truthy (streamSid c) = true
                                ∧ truthy payload = true)
                    ∨ m = ClearOut (streamSid c))
         (run U K rev es s).2.
Proof.
  induction es as [|e es IH]; intros s c Hc Hes; [by constructor|].
  simpl in Hes. apply andb_true_iff in Hes as [He%negb_true_iff Hes].
  rewrite run_cons. simpl. apply Forall_app. split.
  - apply Forall_forall. intros x Hin%list_elem_of_In%step_caused m ->.
    inversion Hin as [op y Hop Hy| | c0 p t y Hrev Hc0 Hev Hres Hy| | | | | | |
                      c0 k delta t Hc0 Hev Hts Htd|c0 k t Hc0 Hev| | ]; subst.
    + apply apply_op_effects in Hy
        as [Hy|[[d Hy]|[(?&?&?&?&?&?&_&_&_&_&Hy)|[[id Hy]|[o Hy]]]]];
        try discriminate Hy. by destruct o.
    + by destruct Hy.
    + assert (c0 = c) as -> by congruence. left. by exists delta.
    + assert (c0 = c) as -> by congruence. by right.
  - pose proof (step_keeps_streamSid U K rev e s He) as Hk.
    rewrite Hc in Hk. simpl in Hk.
    destruct (conn (step U K rev e s).1) as [c1|] eqn:Hc1; [|done].
    injection Hk as Hk. rewrite <- Hk. by apply IH.
Qed.

Lemma outbound_frames_carry_streamSid_witness :
  let s := (run JUndefined JUndefined RevB
              [TwilioMessage (Some (start_frame (Some (JString "s1")))) 3000]
              (connect RevB JNull world_two_sessions).1).1 in
  let c := {| sessionId := JString "s1"; session := Some 0%nat;
              streamSid := JString "MZ1"; callSid := JString "CA1";
              openaiWs := Some 0%nat; openaiReady := false |} in
  let es := [OpenAIOpened 0; audio_delta 0 (JString "pcm") 3100;
             speech_started 0 3200; audio_delta 0 JUndefined 3300] in
  conn s = Some c
  ∧ forallb (λ e, negb (carries_start e)) es = true
  ∧ Forall (λ x, ∀ m, x = TwilioSend m →
                      (∃ payload, m = MediaOut (streamSid c) payload
                                  ∧ truthy (streamSid c) = true
                                  ∧ truthy payload = true)
                      ∨ m = ClearOut (streamSid c))
           (run JUndefined JUndefined RevB es s).2.
Proof.
  split; [reflexivity|]. split; [reflexivity|].
  apply (outbound_frames_carry_streamSid JUndefined JUndefined RevB); reflexivity.
Defined.

(** ** Transcript entries are kept in arrival order *)

Lemma step_ai_message U K rev k ev now s c l s0 :
  conn s = Some c → session c = Some l → deref l (world s) = Some s0 →
  conn (step U K rev (OpenAIMessage k ev now) s).1 = Some c
  ∧ deref l (world (step U K rev (OpenAIMessage k ev now) s).1)
    = Some (from_option (λ en, push_transcript en s0) s0 (entry_of ev now)).
Proof.
  intros Hc Hs Hd. destruct s as [w ss oc]. simpl in *. subst oc. simpl.
  unfold openai_on_message.
  destruct ev as [[| delta | t | t | | |]|]; simpl; try done.
  - destruct (openaiWs c) as [j|]; simpl; [|done]. by destruct (ws_send ss j).
  - by destruct (truthy (streamSid c) && truthy delta).
  - destruct (truthy_text t) as [tx|]; simpl; [|done]. rewrite Hs. simpl.
    split; [done|]. by apply transcript_push_appends.
  - destruct (truthy_text t) as [tx|]; simpl; [|done]. rewrite Hs. simpl.
    split; [done|]. by apply transcript_push_appends.
Qed.

(** X14.  The messages received on the AI leg extend the session's transcript by
    exactly the entries they carry, in the order of arrival: an assistant
    transcript becomes an agent entry, a caller transcription a user entry,
    each stamped with the time it was handled; messages without a truthy
    transcript, and all other messages, add nothing. *)
Theorem transcript_in_arrival_order U K rev
    (msgs : list (nat * option OpenAIEvent * Z)) :
  ∀ (s : Sys) (c : Conn) (l : nat) (s0 : Session),
  conn s = Some c → session c = Some l → deref l (world s) = Some s0 →
  ∃ s', deref l (world (run U K rev (ai_messages msgs) s).1) = Some s'
        ∧ transcript s' = transcript s0 ++ entries_of msgs
        ∧ createdAt s' = createdAt s0 ∧ _ended s' = _ended s0.
Proof.
  induction msgs as [|[[k ev] now] msgs IH]; intros s c l s0 Hc Hs Hd.
  - exists s0. simpl. by rewrite app_nil_r.
  - change (ai_messages ((k, ev, now) :: msgs))
      with (OpenAIMessage k ev now :: ai_messages msgs).
    rewrite run_cons. simpl.
    destruct (step_ai_message U K rev k ev now s c l s0 Hc Hs Hd) as [Hc1 Hd1].
    destruct (IH _ c l _ Hc1 Hs Hd1) as (s' & Hd' & Ht' & Hcr & Hen).
    exists s'. split; [done|].
    unfold entries_of in *. simpl.
    destruct (entry_of ev now) as [en|]; simpl in *.
    + rewrite Ht'. by rewrite <- app_assoc.
    + done.
Qed.

Lemma transcript_in_arrival_order_witness :
  let s := (run JUndefined JUndefined RevB
              [TwilioMessage (Some (start_frame (Some (JString "s1")))) 3000;
               OpenAIOpened 0]
              (connect RevB JNull world_two_sessions).1).1 in
  let msgs := [(0%nat, Some (ResponseAudioTranscriptDone (JString "shalom")), 3300);
               (0%nat, Some (ResponseAudioTranscriptDone (JString "")), 3350);
               (0%nat, None, 3360);
               (0%nat, Some (InputAudioTranscriptionCompleted (JString "hi")), 3400)] in
  (conn s ≫= session) = Some 0%nat
  ∧ ∃ s', deref 0 (world (run JUndefined JUndefined RevB (ai_messages msgs) s).1)
          = Some s'
          ∧ transcript s' = [mkEntry Agent "shalom" 3300; mkEntry User "hi" 3400].
Proof.
  split; [reflexivity|].
  destruct (transcript_in_arrival_order JUndefined JUndefined RevB
    [(0%nat, Some (ResponseAudioTranscriptDone (JString "shalom")), 3300);
     (0%nat, Some (ResponseAudioTranscriptDone (JString "")), 3350);
     (0%nat, None, 3360);
     (0%nat, Some (InputAudioTranscriptionCompleted (JString "hi")), 3400)]
    (run JUndefined JUndefined RevB
       [TwilioMessage (Some (start_frame (Some (JString "s1")))) 3000;
        OpenAIOpened 0]
       (connect RevB JNull world_two_sessions).1).1
    {| sessionId := JString "s1"; session := Some 0%nat;
       streamSid := JString "MZ1"; callSid := JString "CA1";
       openaiWs := Some 0%nat; openaiReady := true |}
    0%nat
    {| prompt := JString "Be concise"; callId := JString "c-1";
       contactName := JString ""; voiceId := JString "alloy";
       language := JString "he"; transcript := []; createdAt := 1000;
       _ended := false |} eq_refl eq_refl eq_refl)
    as (s' & H1 & H2 & _).
  exists s'. split; [exact H1|exact H2].
Defined.

(** ** From creation to a configured AI leg *)

Lemma truthy_JString (x : string) : x ≠ "" → truthy (JString x) = true.
Proof.
  intros Hne. simpl. apply negb_true_iff. by apply String.eqb_neq.
Qed.

(** X15.  A session created through [POST /session] is found by the streaming
    connection that names it, by URL in revision A and by custom parameter
    in revision B: the [start] frame opens one socket, and on its [open]
    event the configuration message carries the session's prompt (the
    default one if the body had none) and the leg is marked ready. *)
Theorem created_session_is_bridged U K rev (uuid : string) (b : SessionBody)
    (now t : Z) (w : World) (sid cs : jsval) :
  uuid ≠ "" →
  run U K rev
      [TwilioMessage (Some (Start (Some (mkStart sid cs (Some (JString uuid)))))) t;
       OpenAIOpened 0]
      (connect rev (match rev with RevA => JString uuid | RevB => JNull end)
               (post_session uuid b now w).1).1
  = ({| world := (post_session uuid b now w).1;
        socks := [OPEN];
        conn := Some {| sessionId := JString uuid;
                        session := Some (length (heap w));
                        streamSid := sid; callSid := cs;
                        openaiWs := Some 0%nat; openaiReady := true |} |},
     [NewWebSocket 0;
      OpenAISend 0 (SessionUpdate
                      (js_or (body_prompt b) (JString "You are a helpful assistant.")))]).
Proof.
  intros Hne. pose proof (truthy_JString uuid Hne) as Ht.
  assert (sessions (post_session uuid b now w).1 !! uuid = Some (length (heap w)))
    as Hl by (simpl; apply lookup_insert_eq).
  assert (heap (post_session uuid b now w).1 !! length (heap w)
          = Some {| prompt := js_or (body_prompt b) (JString "You are a helpful assistant.");
                    callId := js_or (body_callId b) JNull;
                    contactName := js_or (body_contactName b) (JString "");
                    voiceId := js_or (body_voiceId b) (JString "alloy");
                    language := js_or (body_language b) (JString "he");
                    transcript := []; createdAt := now; _ended := false |})
    as Hh by (simpl; by rewrite list_lookup_middle).
  generalize dependent (post_session uuid b now w).1. intros w1 Hl Hh.
  destruct rev.
  - unfold connect, on_connection. rewrite Ht. unfold sessions_get. rewrite Hl.
    simpl. unfold openai_on_open, deref. simpl. rewrite Hh. done.
  - unfold connect, on_connection. simpl. unfold twilio_on_start. simpl.
    simpl in Ht. rewrite Ht, Hl. simpl.
    unfold openai_on_open, deref. simpl. rewrite Hh. done.
Qed.

Lemma created_session_is_bridged_witness :
  "s9" ≠ ""
  ∧ (run JUndefined JUndefined RevB
         [TwilioMessage (Some (Start (Some (mkStart (JString "MZ1") (JString "CA1")
                                                   (Some (JString "s9")))))) 3000;
          OpenAIOpened 0]
         (connect RevB JNull (post_session "s9" body_c1 2500 world_two_sessions).1).1).2
    = [NewWebSocket 0; OpenAISend 0 (SessionUpdate (JString "Be concise"))].
Proof.
  split; [discriminate|].
  exact (f_equal snd (created_session_is_bridged JUndefined JUndefined RevB "s9"
           body_c1 2500 3000 world_two_sessions (JString "MZ1") (JString "CA1")
           ltac:(discriminate))).
Defined.

(** ** Sockets of the AI leg *)

Lemma latest_length (a b : list ReadyState) :
  length a = length b → latest a = latest b.
Proof. unfold latest. by intros ->. Qed.

Lemma latest_snoc (a : list ReadyState) x : latest (a ++ [x]) = Some (length a).
Proof. unfold latest. rewrite length_app. simpl. by rewrite Nat.add_1_r. Qed.

(** How one step changes the closure and the sockets. *)
Lemma step_closure U K rev e s c :
  conn s = Some c →
  ∃ c', conn (step U K rev e s).1 = Some c'
    ∧ (session c' = session c
       ∨ (session c = None
          ∧ ∃ id l, sessions (world s) !! id = Some l ∧ session c' = Some l))
    ∧ if successful_start rev e s
      then socks (step U K rev e s).1 = socks s ++ [CONNECTING]
           ∧ openaiWs c' = Some (length (socks s))
           ∧ (rev = RevB → is_Some (session c'))
      else length (socks (step U K rev e s).1) = length (socks s)
           ∧ openaiWs c' = openaiWs c.
Proof.
  intros Hc. destruct s as [w ss oc]. simpl in Hc. subst oc.
  destruct e as [op|m now|now|k|k ev now|k|k]; simpl.
  - destruct (apply_op U K op w). exists c. simpl. auto.
  - destruct m as [[|[p|]|media| |]|]; simpl; try (exists c; by auto).
    + unfold twilio_on_start, connectOpenAI, resolves_at_start.
      destruct rev; simpl.
      { eexists. split; [done|]. simpl. split; [by left|]. done. }
      destruct (session c) as [l|] eqn:Hs; simpl.
      { eexists. split; [done|]. simpl. split; [by left|].
        split; [done|]. split; [done|]. intros _. by eexists. }
      destruct (truthy (custom_sessionId p)) eqn:Ht; simpl.
      * destruct (sessions_get (custom_sessionId p) w) as [l|] eqn:Hg; simpl.
        -- eexists. split; [done|]. simpl. split.
           ++ right. split; [done|]. unfold sessions_get in Hg.
              destruct (custom_sessionId p) as [| |id]; try done. by exists id, l.
           ++ split; [done|]. split; [done|]. intros _. by eexists.
        -- eexists. split; [done|]. simpl. auto.
      * eexists. split; [done|]. simpl. auto.
    + destruct (handleCallEnd U K (sessionId c) (callSid c) now w).
      exists c. simpl. auto.
  - unfold twilio_on_close.
    destruct (handleCallEnd U K (sessionId c) (callSid c) now w) as [w' e2].
    exists c. destruct (openaiWs c) as [k|] eqn:Hk; [|simpl; by auto].
    destruct (openai_is_open c ss); simpl; [|by auto].
    split; [done|]. split; [by left|]. by rewrite length_insert.
  - unfold openai_on_open. destruct (openaiWs c) as [j|] eqn:Hj.
    + destruct (session c ≫= λ l, deref l w).
      * destruct (ws_send (<[k:=OPEN]> ss) j); eexists; simpl;
          (split; [done|]); (split; [by left|]); by rewrite length_insert.
      * exists c. simpl. split; [done|]. split; [by left|].
        by rewrite length_insert.
    + exists c. simpl. split; [done|]. split; [by left|].
      by rewrite length_insert.
  - destruct (openai_on_message ev now c w ss). exists c. simpl. auto.
  - exists (set_ready false c). simpl. split; [done|]. split; [by left|].
    by rewrite length_insert.
  - exists c. simpl. auto.
Qed.

Lemma run_sockets U K rev es : ∀ s c,
  conn s = Some c → openaiWs c = latest (socks s) →
  length (socks (run U K rev es s).1)
    = (length (socks s) + successful_starts U K rev es s)%nat
  ∧ ∃ c', conn (run U K rev es s).1 = Some c'
          ∧ openaiWs c' = latest (socks (run U K rev es s).1).
Proof.
  induction es as [|e es IH]; intros s c Hc Hl.
  - simpl. split; [lia|]. by exists c.
  - rewrite run_cons. simpl.
    destruct (step_closure U K rev e s c Hc) as (c1 & Hc1 & _ & Hst).
    destruct (successful_start rev e s).
    + destruct Hst as (Hss & Hws & _).
      destruct (IH (step U K rev e s).1 c1 Hc1) as [Hlen Hex].
      { by rewrite Hws, Hss, latest_snoc. }
      split; [|done]. rewrite Hlen, Hss, length_app. simpl. lia.
    + destruct Hst as (Hss & Hws).
      destruct (IH (step U K rev e s).1 c1 Hc1) as [Hlen Hex].
      { rewrite Hws, Hl. by apply latest_length. }
      split; [|done]. rewrite Hlen, Hss. lia.
Qed.

(** X16.  On a connection whose handlers are registered, each successful
    [start] frame creates exactly one socket and nothing else does: after
    any run there are as many sockets as successful starts, and the closure
    holds the one created last.  A repeated [start] therefore leaves the
    earlier socket to itself. *)
Theorem one_socket_per_successful_start U K rev (url : jsval) (w : World)
    (es : list Event) :
  is_Some (conn (connect rev url w).1) →
  length (socks (run U K rev es (connect rev url w).1).1)
    = successful_starts U K rev es (connect rev url w).1
  ∧ ∃ c', conn (run U K rev es (connect rev url w).1).1 = Some c'
          ∧ openaiWs c' = latest (socks (run U K rev es (connect rev url w).1).1).
Proof.
  intros [c Hc].
  assert (openaiWs c = None ∧ socks (connect rev url w).1 = []) as [Hws Hss].
  { destruct (connect_fresh rev url w) as [H1 H2]. rewrite Hc in H1. done. }
  destruct (run_sockets U K rev es _ c Hc) as [Hlen Hex].
  { by rewrite Hws, Hss. }
  split; [|done]. rewrite Hlen, Hss. simpl. lia.
Qed.

Lemma one_socket_per_successful_start_witness :
  let es := [TwilioMessage (Some (start_frame (Some (JString "s1")))) 3000;
             OpenAIOpened 0;
             TwilioMessage (Some (start_frame None)) 3100;
             TwilioClosed 64600] in
  is_Some (conn (connect RevB JNull world_two_sessions).1)
  ∧ length (socks (run JUndefined JUndefined RevB es
                     (connect RevB JNull world_two_sessions).1).1) = 2%nat
  ∧ socks (run JUndefined JUndefined RevB es
             (connect RevB JNull world_two_sessions).1).1 = [OPEN; CONNECTING].
Proof.
  split; [by eexists|]. split; [|reflexivity].
  exact (proj1 (one_socket_per_successful_start JUndefined JUndefined RevB JNull
                  world_two_sessions
                  [TwilioMessage (Some (start_frame (Some (JString "s1")))) 3000;
                   OpenAIOpened 0;
                   TwilioMessage (Some (start_frame None)) 3100;
                   TwilioClosed 64600]
                  (ex_intro _ _ eq_refl))).
Defined.

(** ** When a handler throws outside a [try] *)

Lemma apply_op_registry_shape U K op w :
  (length (heap w) ≤ length (heap (apply_op U K op w).1))%nat
  ∧ ∀ id l, sessions (apply_op U K op w).1 !! id = Some l →
            sessions w !! id = Some l
            ∨ (l < length (heap (apply_op U K op w).1))%nat.
Proof.
  destruct op as [uuid b now|sid cs now|i o|i|now|l0 e]; simpl.
  - rewrite length_app. simpl. split; [lia|]. intros id l.
    destruct (decide (uuid = id)) as [->|Hne].
    + rewrite lookup_insert_eq. intros [= <-]. right. lia.
    + rewrite lookup_insert_ne by done. by left.
  - destruct (pending_session sid w) as [[[id0 l0] s0]|] eqn:Hp.
    + rewrite (handleCallEnd_first _ _ _ _ _ _ _ _ _ Hp).
      destruct (_ && _); simpl; rewrite length_insert; split; by auto.
    + rewrite handleCallEnd_idle by done. simpl. split; by auto.
  - unfold handleCallEnd_resume. destruct (awaiting w !! i); simpl; split; by auto.
  - unfold timer_fired. destruct (timers w !! i) as [sid|]; simpl; [|split; by auto].
    split; [done|]. intros id l Hl. left.
    destruct (decide (sid = id)) as [->|Hne].
    + by rewrite lookup_delete_eq in Hl.
    + by rewrite lookup_delete_ne in Hl.
  - split; [done|]. intros id l Hl. left.
    change (sessions (sweep now w) !! id = Some l) in Hl.
    rewrite sweep_lookup in Hl. destruct (sessions w !! id) as [l'|]; [|done].
    by destruct (expired now w l').
  - unfold transcript_push. destruct (deref l0 w); simpl; [|split; by auto].
    rewrite length_insert. split; by auto.
Qed.

Lemma run_ops_refs_valid U K ops : ∀ w,
  refs_valid w →
  refs_valid (run_ops U K ops w).1
  ∧ (length (heap w) ≤ length (heap (run_ops U K ops w).1))%nat.
Proof.
  induction ops as [|op ops IH]; intros w Hv; [done|].
  destruct (apply_op_registry_shape U K op w) as [Hlen Hs].
  assert (refs_valid (apply_op U K op w).1) as Hv1.
  { intros id l Hl. destruct (Hs id l Hl) as [Hold|Hnew]; [|done].
    specialize (Hv id l Hold). lia. }
  destruct (IH _ Hv1) as [Hv2 Hlen2].
  simpl. destruct (apply_op U K op w) as [w1 o1]. simpl in *.
  destruct (run_ops U K ops w1) as [w2 o2]. simpl in *. split; [done|lia].
Qed.

Lemma refs_valid_empty : refs_valid empty_world.
Proof. intros id l H. simpl in H. by rewrite lookup_empty in H. Qed.

Lemma step_conn_None U K rev e s :
  conn s = None → conn (step U K rev e s).1 = None.
Proof.
  destruct s as [w ss oc]. simpl. intros ->.
  destruct e as [op|m now|now|k|k ev now|k|k]; simpl; try done.
  by destruct (apply_op U K op w).
Qed.

Lemma step_conn_wf U K rev e s :
  conn_wf rev s → conn_wf rev (step U K rev e s).1.
Proof.
  intros [Hrv Hcl].
  destruct (run_ops_refs_valid U K (ops_of e (conn s)) (world s) Hrv)
    as [Hrv1 Hlen].
  rewrite <- (step_world U K rev e s) in Hrv1, Hlen.
  split; [done|]. intros c1 Hc1.
  destruct (conn s) as [c|] eqn:Hc.
  2:{ by rewrite (step_conn_None U K rev e s Hc) in Hc1. }
  destruct (Hcl c eq_refl) as (H1 & H2 & H3 & H4).
  destruct (step_closure U K rev e s c Hc) as (c' & Hc' & Hsess & Hst).
  assert (c' = c1) as -> by congruence.
  assert (is_Some (session c) → is_Some (session c1)) as Hkeep.
  { intros [l Hl]. destruct Hsess as [->|[Hn _]]; [by exists l|congruence]. }
  assert (∀ l, session c1 = Some l → (l < length (heap (world s)))%nat) as Hin.
  { intros l Hl. destruct Hsess as [Heq|(_ & id & l' & Hid & Hl')].
    - apply H4. congruence.
    - assert (l' = l) as -> by congruence. by apply (Hrv id). }
  repeat split.
  - intros Hne. destruct (successful_start rev e s).
    + destruct Hst as (_ & -> & _). by eexists.
    + destruct Hst as (Hlen' & ->). apply H1. intros Hnil.
      rewrite Hnil in Hlen'. simpl in Hlen'.
      by apply nil_length_inv in Hlen'.
  - intros Hws. destruct (successful_start rev e s).
    + destruct Hst as (_ & _ & Hb). destruct rev; [by auto|by apply Hb].
    + destruct Hst as (_ & Heq). rewrite Heq in Hws. by auto.
  - by auto.
  - intros l Hl. specialize (Hin l Hl). lia.
Qed.

Lemma connect_conn_wf rev url w : refs_valid w → conn_wf rev (connect rev url w).1.
Proof.
  intros Hrv. unfold connect, on_connection.
  destruct rev; simpl.
  - destruct (negb (truthy url) || _) eqn:Hg; simpl; [by split|].
    split; [done|]. intros c [= <-]. simpl.
    apply orb_false_iff in Hg as [_ Hg%negb_false_iff%bool_decide_eq_true].
    repeat split; try done; try (by intros []).
    intros l Hl. unfold sessions_get in Hl. destruct url; try done.
    by apply (Hrv s).
  - split; [done|]. intros c [= <-]. simpl.
    repeat split; try done; try (by intros []).
    intros l Hl. destruct (truthy url); [|done].
    unfold sessions_get in Hl. destruct url; try done. by apply (Hrv s).
Qed.

Lemma run_conn_wf U K rev es : ∀ s,
  conn_wf rev s → conn_wf rev (run U K rev es s).1.
Proof.
  induction es as [|e es IH]; intros s Hwf; [done|].
  rewrite run_cons. simpl. by apply IH, step_conn_wf.
Qed.

Lemma step_throws_iff_stale U K rev e s :
  conn_wf rev s → enabled e s = true →
  In Uncaught (step U K rev e s).2
  ↔ ∃ k j c, e = OpenAIOpened k ∧ conn s = Some c ∧ openaiWs c = Some j
             ∧ j ≠ k ∧ socks s !! j = Some CONNECTING.
Proof.
  intros [Hrv Hcl] Hen. split.
  - intros Hin%step_caused.
    inversion Hin as [op y Hop Hy| | c p t y Hrev Hc Hev Hres Hy| | | | |
                      c k Hc Hev Hthrow| | | | | ]; subst.
    + apply apply_op_effects in Hy
        as [Hy|[[d Hy]|[(?&?&?&?&?&?&_&_&_&_&Hy)|[[id Hy]|[o Hy]]]]];
        try discriminate Hy. by destruct o.
    + by destruct Hy.
    + simpl in Hen. apply bool_decide_eq_true in Hen.
      destruct (Hcl c Hc) as (H1 & H2 & _ & H4).
      assert (is_Some (openaiWs c)) as Hws.
      { apply H1. intros Hnil. rewrite Hnil in Hen. simpl in Hen. lia. }
      destruct Hthrow as [Hn|[Hn|(j & Hj & Hst)]].
      * rewrite Hn in Hws. by destruct Hws.
      * destruct (H2 Hws) as [l Hl]. rewrite Hl in Hn. simpl in Hn.
        specialize (H4 l Hl). unfold deref in Hn.
        apply lookup_ge_None in Hn. lia.
      * exists k, j, c. repeat split; try done.
        -- intros ->. rewrite list_lookup_insert_eq in Hst by done. done.
        -- destruct (decide (k = j)) as [->|Hne].
           ++ rewrite list_lookup_insert_eq in Hst by done. done.
           ++ by rewrite list_lookup_insert_ne in Hst.
  - intros (k & j & c & -> & Hc & Hj & Hne & Hst).
    destruct (Hcl c Hc) as (_ & H2 & _ & H4).
    destruct (H2 (ex_intro _ j Hj)) as [l Hl].
    destruct (lookup_lt_is_Some_2 (heap (world s)) l (H4 l Hl)) as [p Hp].
    destruct s as [w ss oc]. simpl in *. subst oc. simpl.
    unfold openai_on_open, ws_send, deref. rewrite Hj, Hl. simpl. rewrite Hp.
    rewrite list_lookup_insert_ne by done. rewrite Hst. simpl. by left.
Qed.

(** X17.  After any run of a connection, on an event of the AI leg that comes
    from a socket that was created, or on any other event, a handler throws
    outside a [try] in exactly one situation: the [open] event of a socket arrives while the
    closure holds another, newer socket that is still CONNECTING, because a
    further [start] frame replaced the socket before the first one opened;
    the [send] of the [open] handler then throws.  The reads through
    [session] and [openaiWs] never fail there: a socket exists only after a
    session was resolved. *)
Theorem open_throws_only_on_stale_socket U K rev (url : jsval) (w : World)
    (es : list Event) (e : Event) :
  refs_valid w →
  enabled e (run U K rev es (connect rev url w).1).1 = true →
  In Uncaught (step U K rev e (run U K rev es (connect rev url w).1).1).2
  ↔ ∃ k j c, e = OpenAIOpened k
             ∧ conn (run U K rev es (connect rev url w).1).1 = Some c
             ∧ openaiWs c = Some j ∧ j ≠ k
             ∧ socks (run U K rev es (connect rev url w).1).1 !! j = Some CONNECTING.
Proof.
  intros Hrv Hen. apply step_throws_iff_stale; [|done].
  by apply run_conn_wf, connect_conn_wf.
Qed.

Lemma open_throws_only_on_stale_socket_witness :
  let es := [TwilioMessage (Some (start_frame (Some (JString "s1")))) 3000;
             TwilioMessage (Some (start_frame (Some (JString "s1")))) 3010] in
  let s := (run JUndefined JUndefined RevB es
                (connect RevB JNull world_two_sessions).1).1 in
  refs_valid world_two_sessions
  ∧ feasible JUndefined JUndefined RevB es (connect RevB JNull world_two_sessions).1 = true
  ∧ socks s = [CONNECTING; CONNECTING]
  ∧ (enabled (OpenAIOpened 0) s = true ∧ enabled (OpenAIOpened 1) s = true)
  ∧ In Uncaught (step JUndefined JUndefined RevB (OpenAIOpened 0) s).2
  ∧ ¬ In Uncaught (step JUndefined JUndefined RevB (OpenAIOpened 1) s).2.
Proof.
  assert (refs_valid world_two_sessions) as Hrv.
  { exact (proj1 (run_ops_refs_valid JUndefined JUndefined
                    [PostSession "s1" body_c1 1000; PostSession "s2" body_c1 2000]
                    empty_world refs_valid_empty)). }
  split; [exact Hrv|]. split; [reflexivity|]. split; [reflexivity|].
  split; [split; reflexivity|].
  pose proof (open_throws_only_on_stale_socket JUndefined JUndefined RevB JNull
    world_two_sessions
    [TwilioMessage (Some (start_frame (Some (JString "s1")))) 3000;
     TwilioMessage (Some (start_frame (Some (JString "s1")))) 3010]
    (OpenAIOpened 0) Hrv eq_refl) as H0.
  pose proof (open_throws_only_on_stale_socket JUndefined JUndefined RevB JNull
    world_two_sessions
    [TwilioMessage (Some (start_frame (Some (JString "s1")))) 3000;
     TwilioMessage (Some (start_frame (Some (JString "s1")))) 3010]
    (OpenAIOpened 1) Hrv eq_refl) as H1.
  split.
  - apply H0.
    exists 0%nat, 1%nat,
      {| sessionId := JString "s1"; session := Some 0%nat;
         streamSid := JString "MZ1"; callSid := JString "CA1";
         openaiWs := Some 1%nat; openaiReady := false |}.
    split; [reflexivity|]. split; [reflexivity|]. split; [reflexivity|].
    split; [lia|reflexivity].
  - intros (k & j & c & Hk & Hc & Hj & Hne & _)%H1.
    injection Hk as <-. vm_compute in Hc. injection Hc as <-. simpl in Hj.
    injection Hj as <-. done.
Defined.
